(** * A shallow embedding of [ocr.py] (jaccount captcha solver)

    The module defines two recognizers.  [LegacyRecognizer] binarizes the
    picture, cuts it into one sub-image per character and asks an SVM
    model for a label per sub-image.  [NNRecognizer] binarizes the
    picture, feeds it whole to a convolutional model and decodes the
    output tensors by argmax.

    Python exceptions are modelled by the left injection of a sum, the
    recognizer object and the calls that leave the module (picture
    decoding, model execution) by explicit state passing. *)

From Stdlib Require Import ZArith List String Ascii Bool Lia Arith.
From Stdlib Require Import DecimalString Floats Uint63.
Import ListNotations.
Local Open Scope string_scope.
Local Open Scope list_scope.
Local Open Scope Z_scope.

Set Implicit Arguments.

(** ** Exceptions and the error monad *)

(** The exceptions that the modelled calls can raise. *)
Inductive exception : Type :=
| UnidentifiedImageError   (* Image.open: the bytes are no picture *)
| OSError                  (* the picture data cannot be read *)
| ValueError
| TypeError
| IndexError
| AttributeError
| RuntimeException.        (* raised by the inference runtime *)

(** A call either raises ([inl]) or returns ([inr]). *)
Definition result (A : Type) : Type := (exception + A)%type.

Definition raise {A : Type} (e : exception) : result A := inl e.
Definition ok {A : Type} (a : A) : result A := inr a.

Definition rbind {A B : Type} (m : result A) (k : A -> result B) : result B :=
  match m with
  | inl e => inl e
  | inr a => k a
  end.

Declare Scope result_scope.
Delimit Scope result_scope with result.
Notation "x <- m ;; k" := (rbind m (fun x => k))
  (at level 61, m at next level, right associativity) : result_scope.

(** [[f x for x in xs]] where [f] may raise: elements are evaluated from
    left to right and the first exception ends the comprehension. *)
Fixpoint rmap {A B : Type} (f : A -> result B) (xs : list A) : result (list B) :=
  match xs with
  | [] => ok []
  | x :: xs' =>
      (y <- f x ;;
       ys <- rmap f xs' ;;
       ok (y :: ys))%result
  end.

(** Python sequence indexing [xs[i]] for a non-negative literal index. *)
Definition getitem {A : Type} (xs : list A) (i : nat) : result A :=
  match nth_error xs i with
  | Some x => ok x
  | None => raise IndexError
  end.

(** ** Pictures *)

Definition bytes : Type := list Byte.byte.

(** A PIL picture with one band: its mode, its size and its pixels in
    row-major order (what [getdata()] enumerates).  Pixels of an 8-bit
    picture are integers in [0, 255]. *)
Record Image : Type := mkImage {
  mode : string;
  size : nat * nat;
  getdata : list Z
}.

(** A pixel of an 8-bit picture. *)
Definition is_pixel (p : Z) : Prop := 0 <= p <= 255.

(** [lut[p]]: the entry of a lookup table at pixel value [p]. *)
Definition lut_at (lut : list Z) (p : Z) : option Z :=
  if p <? 0 then None else nth_error lut (Z.to_nat p).

(** [im.point(lut, mode)] on a one-band 8-bit picture: PIL wants 256
    table entries and replaces every pixel [p] by [lut[p]]. *)
Definition point (lut : list Z) (new_mode : string) (im : Image) : result Image :=
  if negb (Nat.eqb (List.length lut) 256) then raise ValueError
  else
    (px <- rmap (fun p => match lut_at lut p with
                          | Some v => ok v
                          | None => raise ValueError
                          end) (getdata im) ;;
     ok (mkImage new_mode (size im) px))%result.

(** ** Arrays *)

(** A [float32] is carried by a binary64 float: every binary32 value is
    one, with the same order and the same NaN test. *)
Definition float32 : Type := float.

(** [np.float32(p)] for an integer pixel value. *)
Definition float32_of_Z (p : Z) : float32 := PrimFloat.of_uint63 (Uint63.of_Z p).

(** [np.array(seq, dtype=np.float32)] on a sequence of integers. *)
Definition np_array_1d (data : list Z) : list float32 := map float32_of_Z data.

(** The rows of a picture: [h] rows of [w] pixels each. *)
Fixpoint rows_of (h w : nat) (data : list Z) : list (list Z) :=
  match h with
  | O => []
  | S h' => firstn w data :: rows_of h' w (skipn w data)
  end.

(** [np.array(im, dtype=np.float32)] on a picture: an array of shape
    (height, width).  A picture of mode ["1"] is exported as booleans,
    so every non-zero pixel becomes [1.0]. *)
Definition np_array_image (im : Image) : list (list float32) :=
  let conv p :=
    if String.eqb (mode im) "1"
    then (if p =? 0 then float32_of_Z 0 else float32_of_Z 1)
    else float32_of_Z p in
  map (map conv) (rows_of (snd (size im)) (fst (size im)) (getdata im)).

(** [np.expand_dims(a, 0)]: a new leading axis of length one. *)
Definition expand_dims0 {A : Type} (a : A) : list A := [a].

(** The scan of numpy's argmax over one row of floats: [best] is the
    running maximum found at [besti], [i] the index of the head of
    [xs].  An element replaces the maximum when it is not [<=] it; a
    NaN is maximal and ends the scan. *)
Fixpoint argmax_scan (best : float32) (besti i : nat) (xs : list float32) : nat :=
  match xs with
  | [] => besti
  | x :: xs' =>
      if negb (PrimFloat.leb x best)
      then (if PrimFloat.is_nan x then i else argmax_scan x i (S i) xs')
      else argmax_scan best besti (S i) xs'
  end.

Definition argmax_row (row : list float32) : result nat :=
  match row with
  | [] => raise ValueError   (* attempt to get argmax of an empty sequence *)
  | x :: xs => ok (if PrimFloat.is_nan x then O else argmax_scan x O 1%nat xs)
  end.

(** [np.argmax(tensor, 1)] on an array of shape (rows, labels): one
    index per row. *)
Definition np_argmax_axis1 (tensor : list (list float32)) : result (list Z) :=
  rmap (fun row => (i <- argmax_row row ;; ok (Z.of_nat i))%result) tensor.

(** [int(a)] on an integer array: defined for an array of one element. *)
Definition int_of_array (a : list Z) : result Z :=
  match a with
  | [i] => ok i
  | _ => raise TypeError
  end.

(** [int(np.argmax(tensor, 1))] *)
Definition int_argmax (tensor : list (list float32)) : result Z :=
  (am <- np_argmax_axis1 tensor ;;
   int_of_array am)%result.

(** ** Strings *)

(** [ord(c)]. *)
Definition ord (c : ascii) : Z := Z.of_nat (nat_of_ascii c).

(** [chr(n)].  Strings are modelled with 8-bit characters; the decoder
    only calls [chr] below [ord("a") + 26]. *)
Definition chr (n : Z) : result ascii :=
  if (0 <=? n) && (n <? 256) then ok (ascii_of_nat (Z.to_nat n))
  else raise ValueError.

(** A class label as an ONNX classifier returns it: an [int64] or a
    string. *)
Inductive label : Type :=
| LInt (n : Z)
| LStr (s : string).

(** [str(l)]. *)
Definition str (l : label) : string :=
  match l with
  | LInt n => NilZero.string_of_int (Z.to_int n)
  | LStr s => s
  end.

(** ["".join(parts)]. *)
Definition join (parts : list string) : string :=
  fold_right String.append "" parts.

(** A lowercase Latin letter. *)
Definition is_lower (c : ascii) : Prop := ord "a" <= ord c <= ord "z".

Definition all_lower (s : string) : Prop :=
  Forall is_lower (list_ascii_of_string s).

(** ** What the module imports

    Picture decoding and conversion (PIL), the splitting and
    normalizing helpers of [utils], and the inference runtime are used
    as the module finds them: each is a function of its arguments that
    returns or raises. *)

(** An input or output description of a loaded model. *)
Record NodeArg : Type := mkNodeArg { name : string }.

Class Imports : Type := {
  (** [Image.open(BytesIO(img))] *)
  Image_open : bytes -> result Image;
  (** [im.convert(mode)] *)
  convert : string -> Image -> result Image;
  (** [utils.h_split], [utils.v_split], [utils.normalize] *)
  h_split : Image -> result (list Image);
  v_split : Image -> result Image;
  normalize : Image -> result Image;
  (** [rt.InferenceSession]: the sessions, and loading one from a file *)
  InferenceSession : Type;
  rt_InferenceSession : string -> result InferenceSession;
  (** [sess.get_inputs()] *)
  get_inputs : InferenceSession -> list NodeArg;
  (** [sess.run(None, feeds)] of a classifier fed one feature vector:
      its outputs, the first of which holds the labels *)
  run_classifier :
    InferenceSession -> list (string * list float32) ->
    result (list (list label));
  (** [sess.run(None, feeds)] of a network fed a batch of pictures of
      shape (batch, channel, height, width): its output tensors, each
      of shape (batch, labels) *)
  run_network :
    InferenceSession -> list (string * list (list (list (list float32)))) ->
    result (list (list (list float32)))
}.

(** ** Methods: state passing over the object and the calls made *)

(** The calls that leave the module and are kept track of. *)
Inductive event : Type :=
| EvOpen (img : bytes)        (* a picture was handed to the decoder *)
| EvRun (input : string).     (* a session was run, fed through [input] *)

Section Methods.

(** The class of the object a method is called on. *)
Variable Self : Type.

(** The object and the calls made so far. *)
Record world : Type := mkWorld {
  self : Self;
  trace : list event
}.

(** A method body: it returns or raises, and leaves a world. *)
Definition M (A : Type) : Type := world -> result A * world.

Definition ret {A : Type} (a : A) : M A := fun w => (ok a, w).

Definition bind {A B : Type} (m : M A) (k : A -> M B) : M B :=
  fun w =>
    match m w with
    | (inl e, w') => (inl e, w')
    | (inr a, w') => k a w'
    end.

(** A call without effect on the world. *)
Definition lift {A : Type} (r : result A) : M A := fun w => (r, w).

(** [self.field]: an attribute that was never assigned is missing. *)
Definition getattr {A : Type} (field : Self -> option A) : M A :=
  fun w =>
    match field (self w) with
    | Some v => (ok v, w)
    | None => (raise AttributeError, w)
    end.

(** [self.field = v], given how the field is stored. *)
Definition setattr {A : Type} (store : option A -> Self -> Self) (v : A) : M unit :=
  fun w => (ok tt, mkWorld (store (Some v) (self w)) (trace w)).

(** Record a call. *)
Definition emit (ev : event) : M unit :=
  fun w => (ok tt, mkWorld (self w) (trace w ++ [ev])).

(** [[f x for x in xs]] where [f] is a method body. *)
Fixpoint mmap {A B : Type} (f : A -> M B) (xs : list A) : M (list B) :=
  match xs with
  | [] => ret []
  | x :: xs' =>
      bind (f x) (fun y =>
      bind (mmap f xs') (fun ys =>
      ret (y :: ys)))
  end.

End Methods.

Arguments ret {Self A} a.
Arguments lift {Self A} r.
Arguments emit {Self} ev.

Declare Scope method_scope.
Delimit Scope method_scope with method.
Notation "x <- m ;; k" := (bind m (fun x => k))
  (at level 61, m at next level, right associativity) : method_scope.
Notation "m ;;; k" := (bind m (fun _ => k))
  (at level 61, right associativity) : method_scope.

Section Calls.

Context {imports : Imports}.
Variable Self : Type.

(** [Image.open(BytesIO(img))] *)
Definition open_image (img : bytes) : M Self Image :=
  (emit (EvOpen img) ;;;
   lift (Image_open img))%method.

(** [sess.run(None, {sess.get_inputs()[0].name: x})]: the name of the
    first input is looked up, then the session is run. *)
Definition run_first_input {X Y : Type}
    (run : InferenceSession -> list (string * X) -> result Y)
    (sess : InferenceSession) (x : X) : M Self Y :=
  (input <- lift (getitem (get_inputs sess) 0) ;;
   emit (EvRun (name input)) ;;;
   lift (run sess [(name input, x)]))%method.

End Calls.

Arguments open_image {imports Self} img.
Arguments run_first_input {imports Self X Y} run sess x.

(** ** class LegacyRecognizer *)

Module LegacyRecognizer.
Section WithImports.

Context {imports : Imports}.

(** The attributes of an instance; [None] before [__init__] assigns. *)
Record t : Type := mk {
  _clr : option InferenceSession;
  _table : option (list Z)
}.

Definition set_clr (v : option InferenceSession) (o : t) : t := mk v (_table o).
Definition set_table (v : option (list Z)) (o : t) : t := mk (_clr o) v.

Definition __init__ (model_file : string) : M t unit :=
  (sess <- lift (rt_InferenceSession model_file) ;;
   setattr set_clr sess ;;;
   setattr set_table (repeat 0 156 ++ repeat 1 100))%method.

(** [LegacyRecognizer(model_file)]: a fresh object is initialised; an
    exception in [__init__] leaves no object. *)
Definition new (model_file : string) : result t :=
  match __init__ model_file (mkWorld (mk None None) []) with
  | (inl e, _) => raise e
  | (inr _, w) => ok (self w)
  end.

(** [normalize(v_split(segment)).convert("L").getdata()] *)
Definition segment_data (segment : Image) : result (list Z) :=
  (v <- v_split segment ;;
   n <- normalize v ;;
   g <- convert "L" n ;;
   ok (getdata g))%result.

(** [self._clr.run(None, {self._clr.get_inputs()[0].name: np_segment})] *)
Definition predict_segment (np_segment : list float32) : M t (list (list label)) :=
  (clr <- getattr _clr ;;
   run_first_input run_classifier clr np_segment)%method.

(** [str(predict[0][0])] *)
Definition predict_text (predict : list (list label)) : result string :=
  (labels <- getitem predict 0 ;;
   l <- getitem labels 0 ;;
   ok (str l))%result.

Definition recognize (img : bytes) : M t string :=
  (img_rec <- open_image img ;;
   img_rec <- lift (convert "L" img_rec) ;;
   table <- getattr _table ;;
   img_rec <- lift (point table "1" img_rec) ;;
   pieces <- lift (h_split img_rec) ;;
   segments <- lift (rmap segment_data pieces) ;;
   let np_segments := map np_array_1d segments in
   predicts <- mmap predict_segment np_segments ;;
   texts <- lift (rmap predict_text predicts) ;;
   ret (join texts))%method.

End WithImports.
End LegacyRecognizer.

(** ** class NNRecognizer *)

Module NNRecognizer.
Section WithImports.

Context {imports : Imports}.

Record t : Type := mk {
  _table : option (list Z);
  _sess : option InferenceSession
}.

Definition set_table (v : option (list Z)) (o : t) : t := mk v (_sess o).
Definition set_sess (v : option InferenceSession) (o : t) : t := mk (_table o) v.

Definition __init__ (model_file : string) : M t unit :=
  (setattr set_table (repeat 0 156 ++ repeat 1 100) ;;;
   sess <- lift (rt_InferenceSession model_file) ;;
   setattr set_sess sess)%method.

Definition new (model_file : string) : result t :=
  match __init__ model_file (mkWorld (mk None None) []) with
  | (inl e, _) => raise e
  | (inr _, w) => ok (self w)
  end.

(** The body of the loop of [_tensor_to_captcha]: the text so far and
    the next tensor give the text after it. *)
Definition captcha_step (captcha : string) (tensor : list (list float32)) : result string :=
  (asc <- int_argmax tensor ;;
   if asc <? 26
   then (c <- chr (ord "a" + asc) ;; ok (captcha ++ String c "")%string)
   else ok captcha)%result.

(** The loop of [_tensor_to_captcha], started with [captcha]. *)
Fixpoint captcha_loop (captcha : string) (tensors : list (list (list float32))) : result string :=
  match tensors with
  | [] => ok captcha
  | tensor :: rest =>
      (captcha' <- captcha_step captcha tensor ;;
       captcha_loop captcha' rest)%result
  end.

Definition _tensor_to_captcha (tensors : list (list (list float32))) : result string :=
  captcha_loop "" tensors.

Definition recognize (img : bytes) : M t string :=
  (img_rec <- open_image img ;;
   img_rec <- lift (convert "L" img_rec) ;;
   table <- getattr _table ;;
   img_rec <- lift (point table "1" img_rec) ;;
   let img_np := np_array_image img_rec in
   let img_np := expand_dims0 img_np in
   let img_np := expand_dims0 img_np in
   sess <- getattr _sess ;;
   out_tensor <- run_first_input run_network sess img_np ;;
   output <- lift (_tensor_to_captcha out_tensor) ;;
   ret output)%method.

End WithImports.
End NNRecognizer.

(** ** Sample collaborators

    A small decoder and two small models, to run the recognizers on
    concrete inputs. *)

Module Sample.

(** The decoder reads one grey pixel per byte, as a picture of one
    row; no bytes are no picture. *)
Definition decode (img : bytes) : result Image :=
  match img with
  | [] => raise UnidentifiedImageError
  | _ => ok (mkImage "L" (List.length img, 1%nat)
               (map (fun b => Z.of_N (Byte.to_N b)) img))
  end.

(** Conversion keeps the pixels of a one-band picture, and shows the
    set pixels of a bilevel picture as 255. *)
Definition to_mode (m : string) (im : Image) : result Image :=
  if String.eqb (mode im) "1" && String.eqb m "L"
  then ok (mkImage m (size im) (map (fun p => if p =? 0 then 0 else 255) (getdata im)))
  else ok (mkImage m (size im) (getdata im)).

(** One segment per pixel column. *)
Definition columns (im : Image) : result (list Image) :=
  ok (map (fun p => mkImage (mode im) (1%nat, 1%nat) [p]) (getdata im)).

(** A row of [n] scores whose largest stands at index [k]. *)
Definition peak (n k : nat) : list float32 :=
  map (fun i => if Nat.eqb i k then 1%float else 0%float) (seq 0 n).

(** A network with three character slots over 27 labels that answers
    'a', blank, 'z' whatever the picture. *)
Definition three_slots : list (list (list float32)) :=
  [[peak 27 0]; [peak 27 26]; [peak 27 25]].

(** The classifier answers [dark] for a segment whose first feature
    is zero and [light] otherwise. *)
Definition two_classes (dark light : label) (x : list float32) : list (list label) :=
  match x with
  | v :: _ => if PrimFloat.eqb v 0 then [[dark]] else [[light]]
  | [] => [[dark]]
  end.

Definition imports_with (dark light : label) : Imports := {|
  Image_open := decode;
  convert := to_mode;
  h_split := columns;
  v_split := fun im => ok im;
  normalize := fun im => ok im;
  InferenceSession := string;
  rt_InferenceSession := fun model_file =>
    if String.eqb model_file "" then raise RuntimeException else ok model_file;
  get_inputs := fun _ => [mkNodeArg "input"];
  run_classifier := fun _ feeds =>
    match feeds with
    | [(_, x)] => ok (two_classes dark light x)
    | _ => raise RuntimeException
    end;
  run_network := fun _ feeds =>
    match feeds with
    | [_] => ok three_slots
    | _ => raise RuntimeException
    end
|}.

(** A classifier trained with the letters as labels. *)
Definition letters : Imports := imports_with (LStr "a") (LStr "b").

(** A classifier trained with class numbers as labels. *)
Definition numbers : Imports := imports_with (LInt 3) (LInt 10).

(** Two grey pixels, one dark and one light. *)
Definition two_pixels : bytes := [Byte.x10; Byte.xc8].

(** One light pixel. *)
Definition one_pixel : bytes := [Byte.xc8].

(** The recognizers that the constructors build from a model file. *)
Definition legacy_letters : LegacyRecognizer.t (imports := letters) :=
  LegacyRecognizer.mk (imports := letters)
    (Some "svm_model.onnx") (Some (repeat 0 156 ++ repeat 1 100)).

Definition legacy_numbers : LegacyRecognizer.t (imports := numbers) :=
  LegacyRecognizer.mk (imports := numbers)
    (Some "svm_model.onnx") (Some (repeat 0 156 ++ repeat 1 100)).

Definition nn_letters : NNRecognizer.t (imports := letters) :=
  NNRecognizer.mk (imports := letters)
    (Some (repeat 0 156 ++ repeat 1 100)) (Some "nn_model.onnx").

End Sample.

(** ** The table built by the constructors *)

(** [table] is the [_table] of a recognizer that one of the two
    constructors returned. *)
Definition recognizer_table {imports : Imports} (table : list Z) : Prop :=
  (exists model_file r,
      LegacyRecognizer.new model_file = ok r /\
      LegacyRecognizer._table r = Some table) \/
  (exists model_file r,
      NNRecognizer.new model_file = ok r /\
      NNRecognizer._table r = Some table).

(** [built] is the [_table] attribute of the recognizer that one of the
    two constructors returned for [model_file]. *)
Definition constructed_table {imports : Imports}
    (model_file : string) (built : option (list Z)) : Prop :=
  (exists r,
      LegacyRecognizer.new model_file = ok r /\
      built = LegacyRecognizer._table r) \/
  (exists r,
      NNRecognizer.new model_file = ok r /\
      built = NNRecognizer._table r).

(** The picture of [n] pixels that are all [p]. *)
Definition flat_image (m : string) (sz : nat * nat) (n : nat) (p : Z) : Image :=
  mkImage m sz (repeat p n).

(** The running of one segment through the classifier, start to end:
    its pixel data, the feature vector, the run, the first element of
    the first output. *)
Definition segment_label {imports : Imports}
    (sess : InferenceSession) (segment : Image) : result label :=
  (data <- LegacyRecognizer.segment_data segment ;;
   input <- getitem (get_inputs sess) 0 ;;
   predict <- run_classifier sess [(name input, np_array_1d data)] ;;
   labels <- getitem predict 0 ;;
   getitem labels 0)%result.

(** A method that only reads the object: called on the same object
    after whatever calls, it returns or raises the same, makes the same
    calls, and leaves the object as it found it. *)
Definition readonly {Self A : Type} (m : M Self A) : Prop :=
  forall w1 w2, self w1 = self w2 ->
    exists r evs,
      m w1 = (r, mkWorld (self w1) (trace w1 ++ evs)) /\
      m w2 = (r, mkWorld (self w2) (trace w2 ++ evs)).

(** What [LegacyRecognizer.recognize] goes through on [img] when
    nothing raises: the picture is decoded, made grey and binarized,
    the split routine cuts it into [pieces], and the classifier gives
    [labels], one per piece and in the order of the pieces. *)
Definition legacy_run {imports : Imports}
    (r : LegacyRecognizer.t) (img : bytes)
    (pieces : list Image) (labels : list label) : Prop :=
  exists table opened grey binary,
    LegacyRecognizer._table r = Some table /\
    Image_open img = ok opened /\
    convert "L" opened = ok grey /\
    point table "1" grey = ok binary /\
    h_split binary = ok pieces /\
    Forall2 (fun piece l =>
               exists sess, LegacyRecognizer._clr r = Some sess /\
                            segment_label sess piece = ok l)
            pieces labels.

(** What [NNRecognizer.recognize] goes through on [img] when nothing
    raises, up to the run of the network that returns [outs]. *)
Definition nn_run {imports : Imports}
    (r : NNRecognizer.t) (img : bytes)
    (outs : list (list (list float32))) : Prop :=
  exists sess table opened grey binary input,
    NNRecognizer._sess r = Some sess /\
    NNRecognizer._table r = Some table /\
    Image_open img = ok opened /\
    convert "L" opened = ok grey /\
    point table "1" grey = ok binary /\
    getitem (get_inputs sess) 0 = ok input /\
    run_network sess
      [(name input, expand_dims0 (expand_dims0 (np_array_image binary)))] = ok outs.

(** The picture the recognizers see of [img]: decoded, then made grey. *)
Definition grey_image {imports : Imports} (img : bytes) : result Image :=
  (opened <- Image_open img ;;
   convert "L" opened)%result.

(** ** Stages of a call

    Shorthands for the statements about calls that go part of the way. *)

(** [chr(ord("a") + i)] for an index of the alphabet. *)
Definition letter_of (i : Z) : ascii := ascii_of_nat (Z.to_nat (ord "a" + i)).

(** The first lines of [LegacyRecognizer.recognize] went through on
    [img]: the picture was decoded, made grey and binarized with the
    table of [r], and the split routine returned [pieces]. *)
Definition legacy_prepared {imports : Imports}
    (r : LegacyRecognizer.t) (img : bytes) (pieces : list Image) : Prop :=
  exists table opened grey binary,
    LegacyRecognizer._table r = Some table /\
    Image_open img = ok opened /\
    convert "L" opened = ok grey /\
    point table "1" grey = ok binary /\
    h_split binary = ok pieces.

(** The first lines of [NNRecognizer.recognize] went through on [img]:
    the picture was decoded, made grey and binarized to [binary] with
    the table of [r]. *)
Definition nn_prepared {imports : Imports}
    (r : NNRecognizer.t) (img : bytes) (binary : Image) : Prop :=
  exists table opened grey,
    NNRecognizer._table r = Some table /\
    Image_open img = ok opened /\
    convert "L" opened = ok grey /\
    point table "1" grey = ok binary.

(** The batch that [NNRecognizer.recognize] feeds to the network. *)
Definition nn_batch (binary : Image) : list (list (list (list float32))) :=
  expand_dims0 (expand_dims0 (np_array_image binary)).

(** The runs of the classifier that [LegacyRecognizer.recognize] makes
    for [n] segments: each is fed through the first input of the
    session of [r]. *)
Definition legacy_runs {imports : Imports} (r : LegacyRecognizer.t) (n : nat) : list event :=
  match LegacyRecognizer._clr r with
  | Some sess =>
      match get_inputs sess with
      | input :: _ => repeat (EvRun (name input)) n
      | [] => []
      end
  | None => []
  end.

(** ** Collaborators that fail

    Variants of the sample collaborators in which one part raises or
    returns nothing. *)

Module Faulty.

Definition imports_of
    (split : Image -> result (list Image))
    (norm : Image -> result Image) (inputs : list NodeArg)
    (clf : list float32 -> result (list (list label)))
    (net : result (list (list (list float32)))) : Imports := {|
  Image_open := Sample.decode;
  convert := Sample.to_mode;
  h_split := split;
  v_split := fun im => ok im;
  normalize := norm;
  InferenceSession := string;
  rt_InferenceSession := fun model_file => ok model_file;
  get_inputs := fun _ => inputs;
  run_classifier := fun _ feeds =>
    match feeds with
    | [(_, x)] => clf x
    | _ => raise RuntimeException
    end;
  run_network := fun _ _ => net
|}.

(** The classifier of the letters, which raises on a light segment. *)
Definition dark_only (x : list float32) : result (list (list label)) :=
  match x with
  | v :: _ => if PrimFloat.eqb v 0 then ok [[LStr "a"]] else raise RuntimeException
  | [] => ok [[LStr "a"]]
  end.

(** The split routine finds no character. *)
Definition no_pieces : Imports :=
  imports_of (fun _ => ok []) (fun im => ok im) [mkNodeArg "input"]
    dark_only (ok Sample.three_slots).

(** Normalizing raises. *)
Definition no_normalize : Imports :=
  imports_of Sample.columns (fun _ => raise ValueError) [mkNodeArg "input"]
    dark_only (ok Sample.three_slots).

(** The models have no input. *)
Definition no_inputs : Imports :=
  imports_of Sample.columns (fun im => ok im) [] dark_only (ok Sample.three_slots).

(** Runs raise: the classifier on light segments, the network always. *)
Definition no_run : Imports :=
  imports_of Sample.columns (fun im => ok im) [mkNodeArg "input"]
    dark_only (raise RuntimeException).

(** Runs return nothing to decode: the classifier no output, the
    network one tensor without a row. *)
Definition no_output : Imports :=
  imports_of Sample.columns (fun im => ok im) [mkNodeArg "input"]
    (fun _ => ok []) (ok [[]]).

Definition table : list Z := repeat 0 156 ++ repeat 1 100.

Definition legacy (imports : Imports) (sess : option (InferenceSession (Imports := imports)))
  : LegacyRecognizer.t (imports := imports) :=
  LegacyRecognizer.mk (imports := imports) sess (Some table).

Definition nn (imports : Imports) (sess : option (InferenceSession (Imports := imports)))
  : NNRecognizer.t (imports := imports) :=
  NNRecognizer.mk (imports := imports) (Some table) sess.

(** Two dark pixels and a light one between them. *)
Definition three_pixels : bytes := [Byte.x10; Byte.xc8; Byte.x20].

End Faulty.

(** ** Collaborators that may answer differently from call to call

    The recognizers once more, over collaborators of which nothing is
    assumed: a call of the decoder, of a helper of [utils] or of the
    runtime has a set of outcomes it may have, and two calls with the
    same arguments need not have the same.  [Imports] still gives the
    type of the sessions and the inputs that a session declares. *)

Module Nondet.

(** The outcomes that a call may have. *)
Definition N (A : Type) : Type := result A -> Prop.

Class Answers (imports : Imports) : Type := {
  (** [Image.open(BytesIO(img))] *)
  opens : bytes -> N Image;
  (** [im.convert(mode)] *)
  converts : string -> Image -> N Image;
  (** [utils.h_split], [utils.v_split], [utils.normalize] *)
  h_splits : Image -> N (list Image);
  v_splits : Image -> N Image;
  normalizes : Image -> N Image;
  (** [rt.InferenceSession(model_file)] *)
  loads : string -> N InferenceSession;
  (** [sess.run(None, feeds)], of a classifier and of a network *)
  runs_classifier :
    InferenceSession -> list (string * list float32) -> N (list (list label));
  runs_network :
    InferenceSession -> list (string * list (list (list (list float32)))) ->
    N (list (list (list float32)))
}.

(** A call that has one outcome at most. *)
Definition functional {A : Type} (c : N A) : Prop :=
  forall o1 o2, c o1 -> c o2 -> o1 = o2.

(** Every collaborator answers the same when called with the same
    arguments. *)
Definition deterministic_answers {imports : Imports} (answers : Answers imports) : Prop :=
  (forall img, functional (opens img)) /\
  (forall m im, functional (converts m im)) /\
  (forall im, functional (h_splits im)) /\
  (forall im, functional (v_splits im)) /\
  (forall im, functional (normalizes im)) /\
  (forall model_file, functional (loads model_file)) /\
  (forall sess feeds, functional (runs_classifier sess feeds)) /\
  (forall sess feeds, functional (runs_network sess feeds)).

Section Methods.

(** The class of the object a method is called on. *)
Variable Self : Type.

(** A method body: called on an object, the outcomes it may have,
    each with the object it leaves. *)
Definition M (A : Type) : Type := Self -> result A * Self -> Prop.

Definition ret {A : Type} (a : A) : M A := fun s out => out = (ok a, s).

Definition bind {A B : Type} (m : M A) (k : A -> M B) : M B :=
  fun s out =>
    (exists e s', m s (inl e, s') /\ out = (inl e, s')) \/
    (exists a s', m s (inr a, s') /\ k a s' out).

(** A call of a collaborator. *)
Definition call {A : Type} (c : N A) : M A :=
  fun s out => exists r, c r /\ out = (r, s).

(** A computation of the module's own. *)
Definition lift {A : Type} (r : result A) : M A := fun s out => out = (r, s).

(** [self.field] *)
Definition getattr {A : Type} (field : Self -> option A) : M A :=
  fun s out =>
    out = (match field s with
           | Some v => ok v
           | None => raise AttributeError
           end, s).

(** [self.field = v] *)
Definition setattr {A : Type} (store : option A -> Self -> Self) (v : A) : M unit :=
  fun s out => out = (ok tt, store (Some v) s).

(** [[f x for x in xs]] *)
Fixpoint mmap {A B : Type} (f : A -> M B) (xs : list A) : M (list B) :=
  match xs with
  | [] => ret []
  | x :: xs' =>
      bind (f x) (fun y =>
      bind (mmap f xs') (fun ys =>
      ret (y :: ys)))
  end.

End Methods.

Arguments ret {Self A} a.
Arguments lift {Self A} r.
Arguments call {Self A} c.

(** A method body that has one outcome at most on each object. *)
Definition deterministic {Self A : Type} (m : M Self A) : Prop :=
  forall s o1 o2, m s o1 -> m s o2 -> o1 = o2.

(** A method body that leaves the object as it found it. *)
Definition keeps_self {Self A : Type} (m : M Self A) : Prop :=
  forall s o s', m s (o, s') -> s' = s.

Declare Scope nondet_scope.
Delimit Scope nondet_scope with nondet.
Notation "x <- m ;; k" := (bind m (fun x => k))
  (at level 61, m at next level, right associativity) : nondet_scope.
Notation "m ;;; k" := (bind m (fun _ => k))
  (at level 61, right associativity) : nondet_scope.

(** [sess.run(None, {sess.get_inputs()[0].name: x})] *)
Definition run_first_input {imports : Imports} {Self X Y : Type}
    (runs : InferenceSession -> list (string * X) -> N Y)
    (sess : InferenceSession) (x : X) : M Self Y :=
  (input <- lift (getitem (get_inputs sess) 0) ;;
   call (runs sess [(name input, x)]))%nondet.

(** A constructor: a fresh object is initialised; an exception in
    [__init__] leaves no object. *)
Definition construct {Self : Type} (fresh : Self) (init : M Self unit) : N Self :=
  fun out =>
    exists o s, init fresh (o, s) /\
      out = match o with
            | inl e => raise e
            | inr _ => ok s
            end.

Module Legacy.
Section WithAnswers.

Context {imports : Imports} {answers : Answers imports}.

Definition __init__ (model_file : string) : M LegacyRecognizer.t unit :=
  (sess <- call (loads model_file) ;;
   setattr LegacyRecognizer.set_clr sess ;;;
   setattr LegacyRecognizer.set_table (repeat 0 156 ++ repeat 1 100))%nondet.

Definition new (model_file : string) : N LegacyRecognizer.t :=
  construct (LegacyRecognizer.mk None None) (__init__ model_file).

(** [normalize(v_split(segment)).convert("L").getdata()] *)
Definition segment_data (segment : Image) : M LegacyRecognizer.t (list Z) :=
  (v <- call (v_splits segment) ;;
   n <- call (normalizes v) ;;
   g <- call (converts "L" n) ;;
   ret (getdata g))%nondet.

(** [self._clr.run(None, {self._clr.get_inputs()[0].name: np_segment})] *)
Definition predict_segment (np_segment : list float32)
  : M LegacyRecognizer.t (list (list label)) :=
  (clr <- getattr LegacyRecognizer._clr ;;
   run_first_input runs_classifier clr np_segment)%nondet.

Definition recognize (img : bytes) : M LegacyRecognizer.t string :=
  (img_rec <- call (opens img) ;;
   img_rec <- call (converts "L" img_rec) ;;
   table <- getattr LegacyRecognizer._table ;;
   img_rec <- lift (point table "1" img_rec) ;;
   pieces <- call (h_splits img_rec) ;;
   segments <- mmap segment_data pieces ;;
   let np_segments := map np_array_1d segments in
   predicts <- mmap predict_segment np_segments ;;
   texts <- lift (rmap LegacyRecognizer.predict_text predicts) ;;
   ret (join texts))%nondet.

End WithAnswers.
End Legacy.

Module NN.
Section WithAnswers.

Context {imports : Imports} {answers : Answers imports}.

Definition __init__ (model_file : string) : M NNRecognizer.t unit :=
  (setattr NNRecognizer.set_table (repeat 0 156 ++ repeat 1 100) ;;;
   sess <- call (loads model_file) ;;
   setattr NNRecognizer.set_sess sess)%nondet.

Definition new (model_file : string) : N NNRecognizer.t :=
  construct (NNRecognizer.mk None None) (__init__ model_file).

Definition recognize (img : bytes) : M NNRecognizer.t string :=
  (img_rec <- call (opens img) ;;
   img_rec <- call (converts "L" img_rec) ;;
   table <- getattr NNRecognizer._table ;;
   img_rec <- lift (point table "1" img_rec) ;;
   let img_np := np_array_image img_rec in
   let img_np := expand_dims0 img_np in
   let img_np := expand_dims0 img_np in
   sess <- getattr NNRecognizer._sess ;;
   out_tensor <- run_first_input runs_network sess img_np ;;
   output <- lift (NNRecognizer._tensor_to_captcha out_tensor) ;;
   ret output)%nondet.

End WithAnswers.
End NN.

(** The collaborators of [imports], each answering what its function
    returns. *)
Definition answers_of (imports : Imports) : Answers imports := {|
  opens := fun img out => out = Image_open img;
  converts := fun m im out => out = convert m im;
  h_splits := fun im out => out = h_split im;
  v_splits := fun im out => out = v_split im;
  normalizes := fun im out => out = normalize im;
  loads := fun model_file out => out = rt_InferenceSession model_file;
  runs_classifier := fun sess feeds out => out = run_classifier sess feeds;
  runs_network := fun sess feeds out => out = run_network sess feeds
|}.

(** The collaborators of the sample, with a classifier that may answer
    either letter on any segment, as a model file with a random
    operator in it does. *)
Definition fickle : Answers Sample.letters := {|
  opens := opens (Answers := answers_of Sample.letters);
  converts := converts (Answers := answers_of Sample.letters);
  h_splits := h_splits (Answers := answers_of Sample.letters);
  v_splits := v_splits (Answers := answers_of Sample.letters);
  normalizes := normalizes (Answers := answers_of Sample.letters);
  loads := loads (Answers := answers_of Sample.letters);
  runs_classifier := fun _ _ out =>
    out = ok [[LStr "a"]] \/ out = ok [[LStr "b"]];
  runs_network := runs_network (Answers := answers_of Sample.letters)
|}.

End Nondet.

(** The method body [fn], over collaborators that are functions, has
    an outcome that the body [nd] may have. *)
Definition agrees {Self A : Type} (nd : Nondet.M Self A) (fn : M Self A) : Prop :=
  forall w, nd (self w) (fst (fn w), self (snd (fn w))).

(** * Properties *)

(** ** The lookup table *)

Lemma lut_at_low (p : Z) :
  0 <= p <= 155 -> lut_at (repeat 0 156 ++ repeat 1 100) p = Some 0.
Proof.
  intros Hp. unfold lut_at.
  destruct (Z.ltb_spec p 0) as [Hneg | _]; [lia |].
  rewrite nth_error_app1 by (rewrite repeat_length; lia).
  apply nth_error_repeat. lia.
Qed.

Lemma lut_at_high (p : Z) :
  156 <= p <= 255 -> lut_at (repeat 0 156 ++ repeat 1 100) p = Some 1.
Proof.
  intros Hp. unfold lut_at.
  destruct (Z.ltb_spec p 0) as [Hneg | _]; [lia |].
  rewrite nth_error_app2 by (rewrite repeat_length; lia).
  rewrite repeat_length. apply nth_error_repeat. lia.
Qed.

Lemma lut_at_threshold (p : Z) :
  is_pixel p ->
  lut_at (repeat 0 156 ++ repeat 1 100) p = Some (if 156 <=? p then 1 else 0).
Proof.
  unfold is_pixel. intros Hp.
  destruct (Z.leb_spec 156 p).
  - apply lut_at_high. lia.
  - apply lut_at_low. lia.
Qed.

(** Both constructors build the same list. *)
Lemma recognizer_table_eq {imports : Imports} (table : list Z) :
  recognizer_table table -> table = repeat 0 156 ++ repeat 1 100.
Proof.
  intros [(f & r & Hnew & Htab) | (f & r & Hnew & Htab)].
  - unfold LegacyRecognizer.new, LegacyRecognizer.__init__, bind, lift, setattr in Hnew.
    destruct (rt_InferenceSession f) as [e | sess]; [discriminate |].
    cbn in Hnew. injection Hnew as <-. cbn in Htab.
    injection Htab as <-. reflexivity.
  - unfold NNRecognizer.new, NNRecognizer.__init__, bind, lift, setattr in Hnew.
    cbn in Hnew.
    destruct (rt_InferenceSession f) as [e | sess]; [discriminate |].
    cbn in Hnew. injection Hnew as <-. cbn in Htab.
    injection Htab as <-. reflexivity.
Qed.

(** A recognizer that a constructor returned holds the list. *)
Lemma constructed_table_eq {imports : Imports}
    (model_file : string) (built : option (list Z)) :
  constructed_table model_file built ->
  built = Some (repeat 0 156 ++ repeat 1 100).
Proof.
  intros [(r & Hnew & ->) | (r & Hnew & ->)].
  - unfold LegacyRecognizer.new, LegacyRecognizer.__init__, bind, lift, setattr in Hnew.
    destruct (rt_InferenceSession model_file) as [e | sess]; [discriminate |].
    cbn in Hnew. injection Hnew as <-. reflexivity.
  - unfold NNRecognizer.new, NNRecognizer.__init__, bind, lift, setattr in Hnew.
    cbn in Hnew.
    destruct (rt_InferenceSession model_file) as [e | sess]; [discriminate |].
    cbn in Hnew. injection Hnew as <-. reflexivity.
Qed.

(** Mapping the pixels through a total lookup. *)
Lemma rmap_lookup (lut : list Z) (f : Z -> Z) (data : list Z) :
  (forall p, In p data -> lut_at lut p = Some (f p)) ->
  rmap (fun p => match lut_at lut p with
                 | Some v => ok v
                 | None => raise ValueError
                 end) data = ok (map f data).
Proof.
  induction data as [| p data IH]; intros Hall; cbn.
  - reflexivity.
  - rewrite (Hall p) by (left; reflexivity). cbn.
    rewrite IH by (intros q Hq; apply Hall; right; exact Hq).
    reflexivity.
Qed.

Lemma point_threshold (m : string) (im : Image) :
  Forall is_pixel (getdata im) ->
  point (repeat 0 156 ++ repeat 1 100) m im =
  ok (mkImage m (size im) (map (fun p => if 156 <=? p then 1 else 0) (getdata im))).
Proof.
  intros Hpx. unfold point.
  replace (List.length (repeat 0 156 ++ repeat 1 100)) with 256%nat by reflexivity.
  cbn [Nat.eqb negb].
  rewrite (rmap_lookup _ (fun p => if 156 <=? p then 1 else 0)).
  - reflexivity.
  - intros p Hin. apply lut_at_threshold.
    rewrite Forall_forall in Hpx. apply Hpx, Hin.
Qed.

(** C2: a recognizer that either constructor returns holds a table;
    the table has exactly 256 entries, maps every pixel value from 0 to
    155 to 0 and every pixel value from 156 to 255 to 1; so a picture
    whose pixels are all 0 binarizes to a picture whose pixels are all
    0, and one whose pixels are all 255 to one whose pixels are all
    1. *)
Theorem table_is_threshold {imports : Imports}
    (model_file : string) (built : option (list Z)) :
  constructed_table model_file built ->
  exists table,
    built = Some table /\
    List.length table = 256%nat /\
    (forall p, 0 <= p <= 155 -> lut_at table p = Some 0) /\
    (forall p, 156 <= p <= 255 -> lut_at table p = Some 1) /\
    (forall sz n, point table "1" (flat_image "L" sz n 0) = ok (flat_image "1" sz n 0)) /\
    (forall sz n, point table "1" (flat_image "L" sz n 255) = ok (flat_image "1" sz n 1)).
Proof.
  intros Hbuilt. exists (repeat 0 156 ++ repeat 1 100).
  split; [apply (constructed_table_eq Hbuilt) |].
  assert (Hflat : forall sz n p, is_pixel p ->
            point (repeat 0 156 ++ repeat 1 100) "1" (flat_image "L" sz n p) =
            ok (flat_image "1" sz n (if 156 <=? p then 1 else 0))).
  { intros sz n p Hp. unfold flat_image. rewrite point_threshold.
    - cbn [size getdata]. rewrite map_repeat. reflexivity.
    - cbn [getdata]. apply Forall_forall. intros q Hq.
      apply repeat_spec in Hq. subst q. exact Hp. }
  split; [reflexivity |].
  split; [exact lut_at_low |].
  split; [exact lut_at_high |].
  split; intros sz n.
  - apply (Hflat sz n 0). unfold is_pixel. lia.
  - apply (Hflat sz n 255). unfold is_pixel. lia.
Qed.

Lemma table_is_threshold_witness :
  constructed_table (imports := Sample.letters) "svm_model.onnx"
    (LegacyRecognizer._table Sample.legacy_letters) /\
  exists table,
    LegacyRecognizer._table Sample.legacy_letters = Some table /\
    List.length table = 256%nat /\
    lut_at table 155 = Some 0 /\
    lut_at table 156 = Some 1.
Proof.
  assert (H : constructed_table (imports := Sample.letters) "svm_model.onnx"
                (LegacyRecognizer._table Sample.legacy_letters)).
  { left. exists Sample.legacy_letters. split; reflexivity. }
  split; [exact H |].
  destruct (table_is_threshold H) as (table & Htable & Hlen & Hlow & Hhigh & _).
  exists table. split; [exact Htable |]. split; [exact Hlen |].
  split; [apply Hlow | apply Hhigh]; lia.
Defined.

(** C10: a recognizer that either constructor returns holds a table
    that is the comparison of the pixel with 156, and so is monotone
    over the pixel values. *)
Theorem table_monotone {imports : Imports}
    (model_file : string) (built : option (list Z)) :
  constructed_table model_file built ->
  exists table,
    built = Some table /\
    (forall p, is_pixel p -> lut_at table p = Some (if 156 <=? p then 1 else 0)) /\
    (forall p q, is_pixel p -> is_pixel q -> p <= q ->
       exists a b, lut_at table p = Some a /\ lut_at table q = Some b /\ a <= b).
Proof.
  intros Hbuilt. exists (repeat 0 156 ++ repeat 1 100).
  split; [apply (constructed_table_eq Hbuilt) |].
  split.
  - exact lut_at_threshold.
  - intros p q Hp Hq Hle.
    exists (if 156 <=? p then 1 else 0), (if 156 <=? q then 1 else 0).
    rewrite !lut_at_threshold by assumption.
    repeat split.
    destruct (Z.leb_spec 156 p), (Z.leb_spec 156 q); lia.
Qed.

Lemma table_monotone_witness :
  constructed_table (imports := Sample.letters) "nn_model.onnx"
    (NNRecognizer._table Sample.nn_letters) /\
  exists table,
    NNRecognizer._table Sample.nn_letters = Some table /\
    exists a b, lut_at table 100 = Some a /\ lut_at table 200 = Some b /\ a <= b.
Proof.
  assert (H : constructed_table (imports := Sample.letters) "nn_model.onnx"
                (NNRecognizer._table Sample.nn_letters)).
  { right. exists Sample.nn_letters. split; reflexivity. }
  split; [exact H |].
  destruct (table_monotone H) as (table & Htable & _ & Hmono).
  exists table. split; [exact Htable |].
  apply (Hmono 100 200); unfold is_pixel; lia.
Defined.

(** ** Binarizing twice *)

Lemma threshold_is_pixel (data : list Z) :
  Forall is_pixel (map (fun p => if 156 <=? p then 1 else 0) data).
Proof.
  apply Forall_forall. intros v Hv. apply in_map_iff in Hv.
  destruct Hv as (p & <- & _). unfold is_pixel.
  destruct (156 <=? p); lia.
Qed.

Lemma threshold_twice (data : list Z) :
  map (fun p => if 156 <=? p then 1 else 0)
      (map (fun p => if 156 <=? p then 1 else 0) data) =
  map (fun _ => 0) data.
Proof.
  rewrite map_map. apply map_ext. intros p.
  destruct (156 <=? p); reflexivity.
Qed.

Lemma threshold_fixed (data : list Z) :
  map (fun _ : Z => 0) data = map (fun p => if 156 <=? p then 1 else 0) data <->
  Forall (fun p => p <= 155) data.
Proof.
  induction data as [| p data IH]; cbn.
  - split; [constructor | reflexivity].
  - split.
    + intros Heq. injection Heq as Hp Hrest.
      constructor.
      * destruct (Z.leb_spec 156 p); [discriminate | lia].
      * apply IH, Hrest.
    + intros Hall. inversion Hall as [| ? ? Hp Hrest]; subst.
      f_equal.
      * destruct (Z.leb_spec 156 p); [lia | reflexivity].
      * apply IH, Hrest.
Qed.

(** C5, as the code has it: a recognizer that either constructor
    returns holds a table that maps every pixel of an 8-bit picture to
    0 or 1; a second pass through the table turns every pixel of the
    binarized picture to 0, since the two levels 0 and 1 both lie below
    156; the binarized picture is left as it is exactly when the
    picture had no pixel of 156 or more. *)
Theorem binarize_twice {imports : Imports}
    (model_file : string) (built : option (list Z)) (im : Image) :
  constructed_table model_file built ->
  Forall is_pixel (getdata im) ->
  exists table b,
    built = Some table /\
    point table "1" im = ok b /\
    Forall (fun v => v = 0 \/ v = 1) (getdata b) /\
    point table "1" b = ok (mkImage "1" (size im) (map (fun _ => 0) (getdata im))) /\
    (point table "1" b = ok b <-> Forall (fun p => p <= 155) (getdata im)).
Proof.
  intros Hbuilt Hpx.
  exists (repeat 0 156 ++ repeat 1 100).
  exists (mkImage "1" (size im) (map (fun p => if 156 <=? p then 1 else 0) (getdata im))).
  split; [apply (constructed_table_eq Hbuilt) |].
  split; [apply point_threshold, Hpx |].
  split.
  { cbn [getdata]. apply Forall_forall. intros v Hv. apply in_map_iff in Hv.
    destruct Hv as (p & <- & _). destruct (156 <=? p); [right | left]; reflexivity. }
  assert (Hsecond :
    point (repeat 0 156 ++ repeat 1 100) "1"
      (mkImage "1" (size im) (map (fun p => if 156 <=? p then 1 else 0) (getdata im))) =
    ok (mkImage "1" (size im) (map (fun _ => 0) (getdata im)))).
  { rewrite point_threshold by apply threshold_is_pixel.
    cbn [size getdata]. rewrite threshold_twice. reflexivity. }
  split; [exact Hsecond |].
  rewrite Hsecond. split.
  - intros Heq. injection Heq as Heq. apply threshold_fixed, Heq.
  - intros Hall. apply threshold_fixed in Hall. unfold ok. rewrite Hall. reflexivity.
Qed.

Lemma binarize_twice_witness :
  constructed_table (imports := Sample.letters) "svm_model.onnx"
    (LegacyRecognizer._table Sample.legacy_letters) /\
  Forall is_pixel [12; 200] /\
  exists table b,
    LegacyRecognizer._table Sample.legacy_letters = Some table /\
    point table "1" (mkImage "L" (2%nat, 1%nat) [12; 200]) = ok b /\
    Forall (fun v => v = 0 \/ v = 1) (getdata b) /\
    point table "1" b = ok (mkImage "1" (2%nat, 1%nat) [0; 0]).
Proof.
  assert (H : constructed_table (imports := Sample.letters) "svm_model.onnx"
                (LegacyRecognizer._table Sample.legacy_letters)).
  { left. exists Sample.legacy_letters. split; reflexivity. }
  assert (Hpx : Forall is_pixel [12; 200]).
  { repeat constructor; unfold is_pixel; lia. }
  split; [exact H |]. split; [exact Hpx |].
  destruct (binarize_twice (mkImage "L" (2%nat, 1%nat) [12; 200]) H Hpx)
    as (table & b & Htable & Hfirst & Hlevels & Hsecond & _).
  exists table, b. repeat split; assumption.
Defined.

(** C5, as the claim has it, fails: the picture of one pixel 200
    binarizes to the pixel 1, and the table maps 1 to 0. *)
Lemma binarize_not_idempotent :
  recognizer_table (imports := Sample.letters) (repeat 0 156 ++ repeat 1 100) /\
  point (repeat 0 156 ++ repeat 1 100) "1" (mkImage "L" (1%nat, 1%nat) [200]) =
    ok (mkImage "1" (1%nat, 1%nat) [1]) /\
  point (repeat 0 156 ++ repeat 1 100) "1" (mkImage "1" (1%nat, 1%nat) [1]) =
    ok (mkImage "1" (1%nat, 1%nat) [0]) /\
  mkImage "1" (1%nat, 1%nat) [0] <> mkImage "1" (1%nat, 1%nat) [1].
Proof.
  split.
  { left. exists "svm_model.onnx".
    exists (LegacyRecognizer.mk (imports := Sample.letters)
              (Some "svm_model.onnx") (Some (repeat 0 156 ++ repeat 1 100))).
    split; reflexivity. }
  split; [reflexivity |].
  split; [reflexivity | discriminate].
Qed.

(** ** Strings and the error monad *)

Lemma append_nil_r (s : string) : (s ++ "")%string = s.
Proof. induction s as [| c s IH]; cbn; [reflexivity | now rewrite IH]. Qed.

Lemma append_assoc (s1 s2 s3 : string) :
  ((s1 ++ s2) ++ s3)%string = (s1 ++ (s2 ++ s3))%string.
Proof. induction s1 as [| c s1 IH]; cbn; [reflexivity | now rewrite IH]. Qed.

Lemma append_length (s1 s2 : string) :
  String.length (s1 ++ s2) = (String.length s1 + String.length s2)%nat.
Proof. induction s1 as [| c s1 IH]; cbn; [reflexivity | now rewrite IH]. Qed.

Lemma list_ascii_append (s1 s2 : string) :
  list_ascii_of_string (s1 ++ s2) = list_ascii_of_string s1 ++ list_ascii_of_string s2.
Proof. induction s1 as [| c s1 IH]; cbn; [reflexivity | now rewrite IH]. Qed.

Lemma all_lower_append (s1 s2 : string) :
  all_lower s1 -> all_lower s2 -> all_lower (s1 ++ s2).
Proof.
  unfold all_lower. intros H1 H2. rewrite list_ascii_append.
  apply Forall_app. split; assumption.
Qed.

Lemma rbind_ok_inv {A B : Type} (m : result A) (k : A -> result B) (b : B) :
  rbind m k = ok b -> exists a, m = ok a /\ k a = ok b.
Proof.
  destruct m as [e | a]; cbn; intros H; [discriminate |].
  exists a. split; [reflexivity | exact H].
Qed.

Lemma rmap_ok_inv {A B : Type} (f : A -> result B) (xs : list A) (ys : list B) :
  rmap f xs = ok ys -> Forall2 (fun x y => f x = ok y) xs ys.
Proof.
  revert ys. induction xs as [| x xs IH]; cbn; intros ys H.
  - injection H as <-. constructor.
  - apply rbind_ok_inv in H. destruct H as (y & Hy & H).
    apply rbind_ok_inv in H. destruct H as (ys' & Hys & H).
    injection H as <-. constructor; [exact Hy | apply IH, Hys].
Qed.

(** ** The decoder of the network's output *)

Lemma int_argmax_nonneg (tensor : list (list float32)) (i : Z) :
  int_argmax tensor = ok i -> 0 <= i.
Proof.
  unfold int_argmax, np_argmax_axis1. intros H.
  apply rbind_ok_inv in H. destruct H as (am & Ham & Hint).
  destruct am as [| j [| ? ?]]; cbn in Hint; try discriminate.
  injection Hint as ->.
  apply rmap_ok_inv in Ham. inversion Ham as [| row ? ? ? Hrow _]; subst.
  apply rbind_ok_inv in Hrow. destruct Hrow as (n & _ & Hn).
  injection Hn as <-. lia.
Qed.

Lemma chr_letter (i : Z) :
  0 <= i < 26 ->
  exists c, chr (ord "a" + i) = ok c /\ ord c = ord "a" + i /\ is_lower c.
Proof.
  intros Hi. exists (ascii_of_nat (Z.to_nat (ord "a" + i))).
  assert (Hord : ord (ascii_of_nat (Z.to_nat (ord "a" + i))) = ord "a" + i).
  { unfold ord at 1. rewrite nat_ascii_embedding.
    - apply Z2Nat.id. unfold ord. cbn. lia.
    - unfold ord. cbn. lia. }
  split; [| split].
  - unfold chr.
    replace ((0 <=? ord "a" + i) && (ord "a" + i <? 256)) with true; [reflexivity |].
    symmetry. apply andb_true_iff. unfold ord. cbn. split; [apply Z.leb_le | apply Z.ltb_lt]; lia.
  - exact Hord.
  - unfold is_lower. rewrite Hord. unfold ord. cbn. lia.
Qed.

(** One turn of the loop, by the index that the argmax gives. *)
Lemma captcha_step_letter (captcha : string) (tensor : list (list float32)) (i : Z) :
  int_argmax tensor = ok i -> i < 26 ->
  exists c, chr (ord "a" + i) = ok c /\ ord c = ord "a" + i /\ is_lower c /\
    NNRecognizer.captcha_step captcha tensor = ok (captcha ++ String c "")%string.
Proof.
  intros Harg Hlt.
  destruct (@chr_letter i) as (c & Hchr & Hord & Hlow).
  { split; [apply (int_argmax_nonneg _ Harg) | exact Hlt]. }
  exists c. split; [exact Hchr |]. split; [exact Hord |]. split; [exact Hlow |].
  unfold NNRecognizer.captcha_step. rewrite Harg. cbn [rbind ok raise].
  destruct (Z.ltb_spec i 26); [| lia].
  rewrite Hchr. reflexivity.
Qed.

Lemma captcha_step_blank (captcha : string) (tensor : list (list float32)) (i : Z) :
  int_argmax tensor = ok i -> 26 <= i ->
  NNRecognizer.captcha_step captcha tensor = ok captcha.
Proof.
  intros Harg Hge.
  unfold NNRecognizer.captcha_step. rewrite Harg. cbn [rbind ok raise].
  destruct (Z.ltb_spec i 26); [lia | reflexivity].
Qed.

Lemma captcha_step_cases (captcha : string) (tensor : list (list float32)) (s : string) :
  NNRecognizer.captcha_step captcha tensor = ok s ->
  exists i, int_argmax tensor = ok i /\
    ((26 <= i /\ s = captcha) \/
     (0 <= i < 26 /\ exists c, is_lower c /\ s = (captcha ++ String c "")%string)).
Proof.
  intros H.
  destruct (int_argmax tensor) as [e | i] eqn:Harg.
  { unfold NNRecognizer.captcha_step in H. rewrite Harg in H. discriminate. }
  exists i. split; [reflexivity |].
  destruct (Z.ltb_spec i 26) as [Hlt | Hge].
  - right. split; [split; [apply (int_argmax_nonneg _ Harg) | exact Hlt] |].
    destruct (captcha_step_letter captcha _ Harg Hlt) as (c & _ & _ & Hlow & Hstep).
    rewrite Hstep in H. injection H as <-.
    exists c. split; [exact Hlow | reflexivity].
  - left. rewrite (captcha_step_blank captcha _ Harg Hge) in H.
    injection H as <-. split; [exact Hge | reflexivity].
Qed.

(** A turn started with some text appends to it what the turn started
    with the empty text returns, and raises when that one raises. *)
Lemma captcha_step_acc (acc : string) (tensor : list (list float32)) :
  NNRecognizer.captcha_step acc tensor =
  rbind (NNRecognizer.captcha_step "" tensor) (fun s => ok (acc ++ s)%string).
Proof.
  unfold NNRecognizer.captcha_step.
  destruct (int_argmax tensor) as [e | i]; cbn [rbind ok raise]; [reflexivity |].
  destruct (i <? 26).
  - destruct (chr (ord "a" + i)) as [e | c]; reflexivity.
  - cbn. now rewrite append_nil_r.
Qed.

Lemma captcha_loop_acc (tensors : list (list (list float32))) (acc : string) :
  NNRecognizer.captcha_loop acc tensors =
  rbind (NNRecognizer.captcha_loop "" tensors) (fun s => ok (acc ++ s)%string).
Proof.
  revert acc. induction tensors as [| t rest IH]; intros acc.
  - cbn. now rewrite append_nil_r.
  - cbn [NNRecognizer.captcha_loop].
    rewrite (captcha_step_acc acc t).
    destruct (NNRecognizer.captcha_step "" t) as [e | c]; cbn [rbind ok raise]; [reflexivity |].
    rewrite (IH (acc ++ c)%string), (IH c).
    destruct (NNRecognizer.captcha_loop "" rest) as [e | s]; cbn [rbind ok raise]; [reflexivity |].
    now rewrite append_assoc.
Qed.

Lemma captcha_loop_app (pre post : list (list (list float32))) (acc : string) :
  NNRecognizer.captcha_loop acc (pre ++ post) =
  rbind (NNRecognizer.captcha_loop acc pre)
        (fun s => NNRecognizer.captcha_loop s post).
Proof.
  revert acc. induction pre as [| t pre IH]; intros acc; cbn.
  - reflexivity.
  - destruct (NNRecognizer.captcha_step acc t) as [e | acc']; cbn [rbind ok raise]; [reflexivity |].
    apply IH.
Qed.

(** C1: in a list of output tensors that decodes, a tensor whose argmax
    (over the label axis, as an integer) is below 26 gives the letter
    whose code is that of 'a' plus the index, 'z' at index 25, and a
    tensor whose argmax is 26 or more gives no character; the texts of
    the tensors before and after stand around it. *)
Theorem tensor_to_captcha_slot
    (pre post : list (list (list float32))) (tensor : list (list float32))
    (i : Z) (s_pre s_post : string) :
  int_argmax tensor = ok i ->
  NNRecognizer._tensor_to_captcha pre = ok s_pre ->
  NNRecognizer._tensor_to_captcha post = ok s_post ->
  0 <= i /\
  (i < 26 ->
     exists c, chr (ord "a" + i) = ok c /\ ord c = ord "a" + i /\
       NNRecognizer._tensor_to_captcha (pre ++ tensor :: post) =
       ok (s_pre ++ String c s_post)%string) /\
  (i = 25 ->
     NNRecognizer._tensor_to_captcha (pre ++ tensor :: post) =
     ok (s_pre ++ String "z" s_post)%string) /\
  (26 <= i ->
     NNRecognizer._tensor_to_captcha (pre ++ tensor :: post) =
     ok (s_pre ++ s_post)%string).
Proof.
  unfold NNRecognizer._tensor_to_captcha. intros Harg Hpre Hpost.
  assert (Hletter : i < 26 ->
     exists c, chr (ord "a" + i) = ok c /\ ord c = ord "a" + i /\
       NNRecognizer.captcha_loop "" (pre ++ tensor :: post) =
       ok (s_pre ++ String c s_post)%string).
  { intros Hlt.
    destruct (captcha_step_letter s_pre _ Harg Hlt) as (c & Hchr & Hord & _ & Hstep).
    exists c. split; [exact Hchr |]. split; [exact Hord |].
    rewrite captcha_loop_app, Hpre. cbn [rbind ok raise NNRecognizer.captcha_loop].
    rewrite Hstep. cbn [rbind ok raise].
    rewrite captcha_loop_acc, Hpost. cbn [rbind ok raise].
    rewrite append_assoc. reflexivity. }
  split; [apply (int_argmax_nonneg _ Harg) |].
  split; [exact Hletter |].
  split.
  - intros ->. destruct Hletter as (c & Hchr & _ & Hloop); [lia |].
    cbn in Hchr. injection Hchr as <-. exact Hloop.
  - intros Hge.
    rewrite captcha_loop_app, Hpre. cbn [rbind ok raise NNRecognizer.captcha_loop].
    rewrite (captcha_step_blank s_pre _ Harg Hge). cbn [rbind ok raise].
    rewrite captcha_loop_acc, Hpost. reflexivity.
Qed.

Lemma tensor_to_captcha_slot_witness :
  int_argmax [Sample.peak 27 25] = ok 25 /\
  NNRecognizer._tensor_to_captcha [[Sample.peak 27 0]; [Sample.peak 27 26]] = ok "a" /\
  NNRecognizer._tensor_to_captcha [[Sample.peak 27 2]] = ok "c" /\
  NNRecognizer._tensor_to_captcha
    ([[Sample.peak 27 0]; [Sample.peak 27 26]] ++ [Sample.peak 27 25] :: [[Sample.peak 27 2]]) =
  ok "azc".
Proof.
  assert (H1 : int_argmax [Sample.peak 27 25] = ok 25) by (vm_compute; reflexivity).
  assert (H2 : NNRecognizer._tensor_to_captcha [[Sample.peak 27 0]; [Sample.peak 27 26]] = ok "a")
    by (vm_compute; reflexivity).
  assert (H3 : NNRecognizer._tensor_to_captcha [[Sample.peak 27 2]] = ok "c")
    by (vm_compute; reflexivity).
  split; [exact H1 |]. split; [exact H2 |]. split; [exact H3 |].
  apply (proj1 (proj2 (proj2 (tensor_to_captcha_slot _ _ _ H1 H2 H3)))).
  reflexivity.
Defined.

(** ** Method bodies *)

Create HintDb readonly.

Section MethodLemmas.

Variable Self : Type.

Lemma bind_ok_inv {A B : Type} (m : M Self A) (k : A -> M Self B)
    (w w' : world Self) (b : B) :
  bind m k w = (ok b, w') ->
  exists a w1, m w = (ok a, w1) /\ k a w1 = (ok b, w').
Proof.
  unfold bind. destruct (m w) as [[e | a] w1]; intros H.
  - discriminate.
  - exists a, w1. split; [reflexivity | exact H].
Qed.

Lemma lift_ok_inv {A : Type} (r : result A) (w w' : world Self) (a : A) :
  lift r w = (ok a, w') -> r = ok a /\ w' = w.
Proof. unfold lift. intros H. injection H as -> <-. split; reflexivity. Qed.

Lemma getattr_ok_inv {A : Type} (field : Self -> option A)
    (w w' : world Self) (a : A) :
  getattr field w = (ok a, w') -> field (self w) = Some a /\ w' = w.
Proof.
  unfold getattr. destruct (field (self w)) as [v |]; intros H.
  - injection H as -> <-. split; reflexivity.
  - discriminate.
Qed.

Lemma ret_ok_inv {A : Type} (a b : A) (w w' : world Self) :
  ret a w = (ok b, w') -> a = b /\ w' = w.
Proof. unfold ret. intros H. injection H as -> <-. split; reflexivity. Qed.

Lemma readonly_ret {A : Type} (a : A) : readonly (ret (Self := Self) a).
Proof.
  intros w1 w2 _. exists (ok a), []. unfold ret.
  rewrite !app_nil_r. destruct w1, w2. split; reflexivity.
Qed.

Lemma readonly_lift {A : Type} (r : result A) : readonly (lift (Self := Self) r).
Proof.
  intros w1 w2 _. exists r, []. unfold lift.
  rewrite !app_nil_r. destruct w1, w2. split; reflexivity.
Qed.

Lemma readonly_getattr {A : Type} (field : Self -> option A) :
  readonly (getattr field).
Proof.
  intros [o1 t1] [o2 t2] Hself. cbn in Hself. subst o2.
  unfold getattr. cbn [self trace].
  destruct (field o1) as [v |].
  - exists (ok v), []. rewrite !app_nil_r. split; reflexivity.
  - exists (raise AttributeError), []. rewrite !app_nil_r. split; reflexivity.
Qed.

Lemma readonly_emit (ev : event) : readonly (emit (Self := Self) ev).
Proof.
  intros w1 w2 _. exists (ok tt), [ev]. unfold emit. split; reflexivity.
Qed.

Lemma readonly_bind {A B : Type} (m : M Self A) (k : A -> M Self B) :
  readonly m -> (forall a, readonly (k a)) -> readonly (bind m k).
Proof.
  intros Hm Hk w1 w2 Hself.
  destruct (Hm w1 w2 Hself) as (r & evs & H1 & H2).
  unfold bind. rewrite H1, H2.
  destruct r as [e | a].
  - exists (inl e), evs. split; reflexivity.
  - destruct (Hk a (mkWorld (self w1) (trace w1 ++ evs))
                   (mkWorld (self w2) (trace w2 ++ evs)) Hself)
      as (r' & evs' & H1' & H2').
    cbn [self trace] in H1', H2'.
    exists r', (evs ++ evs'). rewrite !app_assoc.
    split; assumption.
Qed.

Lemma readonly_mmap {A B : Type} (f : A -> M Self B) (xs : list A) :
  (forall x, readonly (f x)) -> readonly (mmap f xs).
Proof.
  intros Hf. induction xs as [| x xs IH]; cbn [mmap].
  - apply readonly_ret.
  - apply readonly_bind; [apply Hf |]. intros y.
    apply readonly_bind; [apply IH |]. intros ys.
    apply readonly_ret.
Qed.

(** A method that only reads leaves the object alone and only adds
    to the calls made. *)
Lemma readonly_frame {A : Type} (m : M Self A) (w : world Self) :
  readonly m ->
  self (snd (m w)) = self w /\ exists evs, trace (snd (m w)) = trace w ++ evs.
Proof.
  intros Hm. destruct (Hm w w eq_refl) as (r & evs & H & _).
  rewrite H. cbn. split; [reflexivity | exists evs; reflexivity].
Qed.

(** The outcome of a comprehension over a method that only reads. *)
Lemma mmap_ok_inv {A B : Type} (f : A -> M Self B) (xs : list A)
    (w w' : world Self) (ys : list B) :
  (forall x, readonly (f x)) ->
  mmap f xs w = (ok ys, w') ->
  self w' = self w /\
  Forall2 (fun x y => exists w1 w2, self w1 = self w /\ f x w1 = (ok y, w2)) xs ys.
Proof.
  intros Hf. revert w ys. induction xs as [| x xs IH]; intros w ys H; cbn [mmap] in H.
  - apply ret_ok_inv in H. destruct H as [<- ->]. split; [reflexivity | constructor].
  - apply bind_ok_inv in H. destruct H as (y & w1 & Hy & H).
    apply bind_ok_inv in H. destruct H as (ys' & w2 & Hys & H).
    apply ret_ok_inv in H. destruct H as [<- ->].
    assert (Hw1 : self w1 = self w).
    { pose proof (proj1 (readonly_frame w (Hf x))) as Hfr.
      rewrite Hy in Hfr. exact Hfr. }
    destruct (IH _ _ Hys) as [Hw2 Hall].
    split; [congruence |].
    constructor.
    + exists w, w1. split; [reflexivity | exact Hy].
    + eapply Forall2_impl; [| exact Hall].
      intros a b (wa & wb & Hwa & Hab). exists wa, wb.
      split; [congruence | exact Hab].
Qed.

End MethodLemmas.

Section CallLemmas.

Context {imports : Imports}.
Variable Self : Type.

Lemma readonly_open_image (img : bytes) : readonly (open_image (Self := Self) img).
Proof.
  unfold open_image. apply readonly_bind; [apply readonly_emit |].
  intros _. apply readonly_lift.
Qed.

Lemma readonly_run_first_input {X Y : Type}
    (run : InferenceSession -> list (string * X) -> result Y)
    (sess : InferenceSession) (x : X) :
  readonly (run_first_input (Self := Self) run sess x).
Proof.
  unfold run_first_input. apply readonly_bind; [apply readonly_lift |].
  intros input. apply readonly_bind; [apply readonly_emit |].
  intros _. apply readonly_lift.
Qed.

Lemma open_image_ok_inv (img : bytes) (w w' : world Self) (im : Image) :
  open_image img w = (ok im, w') -> Image_open img = ok im /\ self w' = self w.
Proof.
  unfold open_image, bind, emit, lift. intros H.
  injection H as -> <-. split; reflexivity.
Qed.

Lemma run_first_input_ok_inv {X Y : Type}
    (run : InferenceSession -> list (string * X) -> result Y)
    (sess : InferenceSession) (x : X) (w w' : world Self) (y : Y) :
  run_first_input run sess x w = (ok y, w') ->
  self w' = self w /\
  exists input, getitem (get_inputs sess) 0 = ok input /\
                run sess [(name input, x)] = ok y.
Proof.
  unfold run_first_input, bind, emit, lift.
  destruct (getitem (get_inputs sess) 0) as [e | input]; intros H; [discriminate |].
  injection H as Hrun <-. split; [reflexivity |].
  exists input. split; [reflexivity | exact Hrun].
Qed.

End CallLemmas.

(** Steps through a method body that returned: [H] says that a bind
    returned; its first part returned [a], which [Ha] states. *)
Ltac bind_inv H a Ha :=
  let w := fresh "w" in
  apply bind_ok_inv in H; destruct H as (a & w & Ha & H).

(** The same when the first part is a call without effect, or the
    reading of an attribute. *)
Ltac lift_inv H a Ha :=
  bind_inv H a Ha; apply lift_ok_inv in Ha; destruct Ha as [Ha ->].

Ltac getattr_inv H a Ha :=
  bind_inv H a Ha; apply getattr_ok_inv in Ha; destruct Ha as [Ha ->].

#[local] Hint Resolve readonly_ret readonly_lift readonly_getattr readonly_emit
  readonly_bind readonly_mmap readonly_open_image readonly_run_first_input
  : readonly.

Lemma readonly_predict_segment {imports : Imports} (x : list float32) :
  readonly (LegacyRecognizer.predict_segment x).
Proof. unfold LegacyRecognizer.predict_segment. auto with readonly. Qed.

#[local] Hint Resolve readonly_predict_segment : readonly.

Lemma readonly_legacy_recognize {imports : Imports} (img : bytes) :
  readonly (LegacyRecognizer.recognize img).
Proof. unfold LegacyRecognizer.recognize. cbv zeta. auto 20 with readonly. Qed.

Lemma readonly_nn_recognize {imports : Imports} (img : bytes) :
  readonly (NNRecognizer.recognize img).
Proof. unfold NNRecognizer.recognize. cbv zeta. auto 20 with readonly. Qed.

(** ** Calls of [recognize] *)

(** C9: after a call of [recognize], whether it returned or raised, the
    recognizer has the session and the table it had before, and the
    calls made before are still there, followed by those of this call. *)
Theorem recognize_keeps_recognizer {imports : Imports} (img : bytes) :
  (forall w,
     self (snd (LegacyRecognizer.recognize img w)) = self w /\
     exists evs, trace (snd (LegacyRecognizer.recognize img w)) = trace w ++ evs) /\
  (forall w,
     self (snd (NNRecognizer.recognize img w)) = self w /\
     exists evs, trace (snd (NNRecognizer.recognize img w)) = trace w ++ evs).
Proof.
  split; intros w.
  - apply readonly_frame, readonly_legacy_recognize.
  - apply readonly_frame, readonly_nn_recognize.
Qed.

(** C7: when the bytes do not decode to a grey picture, because
    [Image.open] or the conversion raises, [recognize] of either
    recognizer raises that exception; the decoder was called once and
    no session was run. *)
Theorem recognize_decode_failure {imports : Imports} (img : bytes) (e : exception) :
  grey_image img = raise e ->
  (forall w,
     LegacyRecognizer.recognize img w =
     (raise e, mkWorld (self w) (trace w ++ [EvOpen img]))) /\
  (forall w,
     NNRecognizer.recognize img w =
     (raise e, mkWorld (self w) (trace w ++ [EvOpen img]))).
Proof.
  unfold grey_image. intros Hfail.
  split; intros w.
  - unfold LegacyRecognizer.recognize, open_image, bind, emit, lift.
    destruct (Image_open img) as [e' | opened]; cbn in Hfail |- *.
    + injection Hfail as ->. reflexivity.
    + rewrite Hfail. reflexivity.
  - unfold NNRecognizer.recognize, open_image, bind, emit, lift.
    destruct (Image_open img) as [e' | opened]; cbn in Hfail |- *.
    + injection Hfail as ->. reflexivity.
    + rewrite Hfail. reflexivity.
Qed.

Lemma recognize_decode_failure_witness :
  grey_image (imports := Sample.letters) [] = raise UnidentifiedImageError /\
  LegacyRecognizer.recognize [] (mkWorld Sample.legacy_letters []) =
    (raise UnidentifiedImageError, mkWorld Sample.legacy_letters [EvOpen []]) /\
  NNRecognizer.recognize [] (mkWorld Sample.nn_letters []) =
    (raise UnidentifiedImageError, mkWorld Sample.nn_letters [EvOpen []]).
Proof.
  assert (H : grey_image (imports := Sample.letters) [] = raise UnidentifiedImageError)
    by reflexivity.
  split; [exact H |].
  destruct (recognize_decode_failure (imports := Sample.letters) [] H) as [Hl Hn].
  split.
  - exact (Hl (mkWorld Sample.legacy_letters [])).
  - exact (Hn (mkWorld Sample.nn_letters [])).
Defined.

(** ** What a call of [recognize] that returns went through *)

Lemma nn_recognize_inv {imports : Imports} (img : bytes)
    (w w' : world NNRecognizer.t) (s : string) :
  NNRecognizer.recognize img w = (ok s, w') ->
  exists outs, nn_run (self w) img outs /\ NNRecognizer._tensor_to_captcha outs = ok s.
Proof.
  unfold NNRecognizer.recognize. intros H.
  bind_inv H opened Hopen.
  apply open_image_ok_inv in Hopen. destruct Hopen as [Hopen Hself].
  lift_inv H grey Hgrey.
  getattr_inv H table Htable.
  lift_inv H binary Hbin.
  cbv zeta in H.
  getattr_inv H sess Hsess.
  bind_inv H outs Hrun.
  apply run_first_input_ok_inv in Hrun. destruct Hrun as (_ & input & Hinput & Hrun).
  lift_inv H output Hdec.
  apply ret_ok_inv in H. destruct H as [-> _].
  exists outs. split; [| exact Hdec].
  exists sess, table, opened, grey, binary, input.
  rewrite <- Hself. repeat split; assumption.
Qed.

(** The labels behind the texts of a comprehension over the segments. *)
Lemma legacy_labels {imports : Imports} (r : LegacyRecognizer.t)
    (pieces : list Image) (segments : list (list Z))
    (predicts : list (list (list label))) (texts : list string) :
  Forall2 (fun piece data => LegacyRecognizer.segment_data piece = ok data)
          pieces segments ->
  Forall2 (fun x predict =>
             exists sess input,
               LegacyRecognizer._clr r = Some sess /\
               getitem (get_inputs sess) 0 = ok input /\
               run_classifier sess [(name input, x)] = ok predict)
          (map np_array_1d segments) predicts ->
  Forall2 (fun predict text => LegacyRecognizer.predict_text predict = ok text)
          predicts texts ->
  exists labels,
    Forall2 (fun piece l =>
               exists sess, LegacyRecognizer._clr r = Some sess /\
                            segment_label sess piece = ok l)
            pieces labels /\
    texts = map str labels.
Proof.
  intros Hseg. revert predicts texts.
  induction Hseg as [| piece data pieces segments Hdata Hrest IH];
    intros predicts texts Hrun Htext.
  - inversion Hrun; subst. inversion Htext; subst.
    exists []. split; [constructor | reflexivity].
  - cbn [map] in Hrun.
    inversion Hrun as [| ? predict ? predicts' (sess & input & Hsess & Hinput & Hpredict) Hrun'];
      subst.
    inversion Htext as [| ? text ? texts' Hpt Htext']; subst.
    destruct (IH _ _ Hrun' Htext') as (labels & Hlabels & ->).
    unfold LegacyRecognizer.predict_text in Hpt.
    apply rbind_ok_inv in Hpt. destruct Hpt as (first & Hfirst & Hpt).
    apply rbind_ok_inv in Hpt. destruct Hpt as (l & Hl & Hpt).
    injection Hpt as <-.
    exists (l :: labels). split; [| reflexivity].
    constructor; [| exact Hlabels].
    exists sess. split; [exact Hsess |].
    unfold segment_label.
    rewrite Hdata. cbn [rbind ok raise].
    rewrite Hinput. cbn [rbind ok raise].
    rewrite Hpredict. cbn [rbind ok raise].
    rewrite Hfirst. cbn [rbind ok raise].
    exact Hl.
Qed.

Lemma legacy_recognize_inv {imports : Imports} (img : bytes)
    (w w' : world LegacyRecognizer.t) (s : string) :
  LegacyRecognizer.recognize img w = (ok s, w') ->
  exists pieces labels,
    legacy_run (self w) img pieces labels /\ s = join (map str labels).
Proof.
  unfold LegacyRecognizer.recognize. intros H.
  bind_inv H opened Hopen.
  apply open_image_ok_inv in Hopen. destruct Hopen as [Hopen Hw1].
  lift_inv H grey Hgrey.
  getattr_inv H table Htable.
  lift_inv H binary Hbin.
  lift_inv H pieces Hsplit.
  lift_inv H segments Hseg.
  cbv zeta in H.
  bind_inv H predicts Hrun.
  lift_inv H texts Htexts.
  apply ret_ok_inv in H. destruct H as [<- _].
  apply mmap_ok_inv in Hrun; [| apply readonly_predict_segment].
  destruct Hrun as [_ Hrun].
  apply rmap_ok_inv in Hseg. apply rmap_ok_inv in Htexts.
  assert (Hrun' :
    Forall2 (fun x predict =>
               exists sess input,
                 LegacyRecognizer._clr (self w) = Some sess /\
                 getitem (get_inputs sess) 0 = ok input /\
                 run_classifier sess [(name input, x)] = ok predict)
            (map np_array_1d segments) predicts).
  { eapply Forall2_impl; [| exact Hrun].
    intros x predict (wa & wb & Hwa & Hcall).
    unfold LegacyRecognizer.predict_segment in Hcall.
    apply bind_ok_inv in Hcall. destruct Hcall as (clr & wc & Hclr & Hcall).
    apply getattr_ok_inv in Hclr. destruct Hclr as [Hclr ->].
    apply run_first_input_ok_inv in Hcall. destruct Hcall as (_ & input & Hinput & Hcall).
    exists clr, input. rewrite <- Hw1, <- Hwa.
    split; [exact Hclr |]. split; [exact Hinput | exact Hcall]. }
  destruct (legacy_labels (self w) Hseg Hrun' Htexts) as (labels & Hlabels & ->).
  exists pieces, labels. split; [| reflexivity].
  exists table, opened, grey, binary.
  rewrite <- Hw1. repeat split; try assumption.
  rewrite Hw1. exact Hlabels.
Qed.

(** ** The text returned by the whole-image recognizer *)

Lemma captcha_loop_length (tensors : list (list (list float32))) (acc s : string) :
  NNRecognizer.captcha_loop acc tensors = ok s ->
  (String.length s <= String.length acc + List.length tensors)%nat /\
  (Exists (fun t => exists i, int_argmax t = ok i /\ ~ 0 <= i < 26) tensors ->
   (String.length s < String.length acc + List.length tensors)%nat).
Proof.
  revert acc. induction tensors as [| t rest IH]; intros acc H.
  - cbn in H. injection H as <-. split.
    + cbn. lia.
    + intros Hex. inversion Hex.
  - cbn [NNRecognizer.captcha_loop] in H.
    apply rbind_ok_inv in H. destruct H as (acc' & Hstep & Hrest).
    destruct (IH _ Hrest) as [Hle Hlt].
    destruct (captcha_step_cases _ _ Hstep)
      as (i & Harg & [(Hge & ->) | (Hin & c & _ & ->)]).
    + split; [cbn [List.length]; lia |]. intros _. cbn [List.length]. lia.
    + rewrite append_length in Hle, Hlt. cbn [String.length] in Hle, Hlt.
      split; [cbn [List.length]; lia |].
      intros Hex. cbn [List.length].
      inversion Hex as [? ? (j & Hj & Hout) | ? ? Hex']; subst.
      * rewrite Harg in Hj. injection Hj as <-. contradiction.
      * specialize (Hlt Hex'). lia.
Qed.

Lemma captcha_loop_lower (tensors : list (list (list float32))) (acc s : string) :
  NNRecognizer.captcha_loop acc tensors = ok s -> all_lower acc -> all_lower s.
Proof.
  revert acc. induction tensors as [| t rest IH]; intros acc H Hacc.
  - cbn in H. injection H as <-. exact Hacc.
  - cbn [NNRecognizer.captcha_loop] in H.
    apply rbind_ok_inv in H. destruct H as (acc' & Hstep & Hrest).
    apply (IH _ Hrest).
    destruct (captcha_step_cases _ _ Hstep)
      as (i & Harg & [(Hge & ->) | (Hin & c & Hlow & ->)]).
    + exact Hacc.
    + apply all_lower_append; [exact Hacc |].
      unfold all_lower. cbn. constructor; [exact Hlow | constructor].
Qed.

(** C4: the text that [NNRecognizer.recognize] returns is no longer
    than the list of output tensors that the network returned, and
    shorter when the argmax of some output tensor is outside
    [0, 26). *)
Theorem nn_recognize_length {imports : Imports} (img : bytes)
    (w w' : world NNRecognizer.t) (s : string) :
  NNRecognizer.recognize img w = (ok s, w') ->
  exists outs,
    nn_run (self w) img outs /\
    (String.length s <= List.length outs)%nat /\
    (Exists (fun t => exists i, int_argmax t = ok i /\ ~ 0 <= i < 26) outs ->
     (String.length s < List.length outs)%nat).
Proof.
  intros H. apply nn_recognize_inv in H. destruct H as (outs & Hrun & Hdec).
  exists outs. split; [exact Hrun |].
  exact (captcha_loop_length outs "" Hdec).
Qed.

Lemma nn_recognize_length_witness :
  NNRecognizer.recognize Sample.two_pixels (mkWorld Sample.nn_letters []) =
    (ok "az", mkWorld Sample.nn_letters [EvOpen Sample.two_pixels; EvRun "input"]) /\
  exists outs,
    nn_run Sample.nn_letters Sample.two_pixels outs /\
    (String.length "az" <= List.length outs)%nat.
Proof.
  assert (H : NNRecognizer.recognize Sample.two_pixels (mkWorld Sample.nn_letters []) =
    (ok "az", mkWorld Sample.nn_letters [EvOpen Sample.two_pixels; EvRun "input"]))
    by (vm_compute; reflexivity).
  split; [exact H |].
  destruct (nn_recognize_length _ _ H) as (outs & Hrun & Hle & _).
  exists outs. split; [exact Hrun | exact Hle].
Defined.

(** ** The text returned by the segmenting recognizer *)

Lemma join_length_one (labels : list label) :
  Forall (fun l => String.length (str l) = 1%nat) labels ->
  String.length (join (map str labels)) = List.length labels.
Proof.
  induction 1 as [| l labels Hl _ IH]; cbn.
  - reflexivity.
  - rewrite append_length, Hl. cbn. f_equal. exact IH.
Qed.

Lemma join_lower (labels : list label) :
  Forall (fun l => all_lower (str l)) labels ->
  all_lower (join (map str labels)).
Proof.
  induction 1 as [| l labels Hl _ IH]; cbn.
  - constructor.
  - apply all_lower_append; assumption.
Qed.

(** C3, as the code has it: the text that [LegacyRecognizer.recognize]
    returns is the string forms of the labels predicted for the
    segments, one label per segment of the split routine, joined in the
    order of the segments; it has as many characters as there are
    segments when the string form of every label is one character. *)
Theorem legacy_recognize_text {imports : Imports} (img : bytes)
    (w w' : world LegacyRecognizer.t) (s : string) :
  LegacyRecognizer.recognize img w = (ok s, w') ->
  exists pieces labels,
    legacy_run (self w) img pieces labels /\
    List.length labels = List.length pieces /\
    s = join (map str labels) /\
    (Forall (fun l => String.length (str l) = 1%nat) labels ->
     String.length s = List.length pieces).
Proof.
  intros H. apply legacy_recognize_inv in H.
  destruct H as (pieces & labels & Hrun & ->).
  exists pieces, labels.
  assert (Hlen : List.length labels = List.length pieces).
  { destruct Hrun as (table & opened & grey & binary & _ & _ & _ & _ & _ & Hall).
    symmetry. apply (Forall2_length Hall). }
  split; [exact Hrun |]. split; [exact Hlen |]. split; [reflexivity |].
  intros Hone. rewrite join_length_one by exact Hone. exact Hlen.
Qed.

Lemma legacy_recognize_text_witness :
  LegacyRecognizer.recognize Sample.two_pixels (mkWorld Sample.legacy_letters []) =
    (ok "ab",
     mkWorld Sample.legacy_letters
       [EvOpen Sample.two_pixels; EvRun "input"; EvRun "input"]) /\
  exists pieces labels,
    legacy_run Sample.legacy_letters Sample.two_pixels pieces labels /\
    "ab" = join (map str labels).
Proof.
  assert (H : LegacyRecognizer.recognize Sample.two_pixels (mkWorld Sample.legacy_letters []) =
    (ok "ab",
     mkWorld Sample.legacy_letters
       [EvOpen Sample.two_pixels; EvRun "input"; EvRun "input"]))
    by (vm_compute; reflexivity).
  split; [exact H |].
  destruct (legacy_recognize_text _ _ H) as (pieces & labels & Hrun & _ & Hjoin & _).
  exists pieces, labels. split; [exact Hrun | exact Hjoin].
Defined.

(** C3, as the claim has it, fails: with a classifier whose labels are
    class numbers, the one segment of a picture of one light pixel is
    labelled 10, and the text returned has two characters. *)
Lemma legacy_text_longer_than_segments :
  fst (LegacyRecognizer.recognize Sample.one_pixel (mkWorld Sample.legacy_numbers [])) =
    ok "10" /\
  legacy_run Sample.legacy_numbers Sample.one_pixel
    [mkImage "1" (1%nat, 1%nat) [1]] [LInt 10] /\
  String.length "10" <> List.length [mkImage "1" (1%nat, 1%nat) [1]].
Proof.
  split; [vm_compute; reflexivity |].
  split; [| cbn; lia].
  exists (repeat 0 156 ++ repeat 1 100),
         (mkImage "L" (1%nat, 1%nat) [200]),
         (mkImage "L" (1%nat, 1%nat) [200]),
         (mkImage "1" (1%nat, 1%nat) [1]).
  repeat split.
  constructor; [| constructor].
  exists "svm_model.onnx". split; [reflexivity | vm_compute; reflexivity].
Qed.

(** ** The alphabet of the text returned *)

(** C6, as the code has it: every character of a text that
    [NNRecognizer.recognize] returns is a lowercase Latin letter; a text
    that [LegacyRecognizer.recognize] returns is made of the string
    forms of the classifier's labels, and every character of it is a
    lowercase Latin letter when those labels are made of such
    letters. *)
Theorem recognize_alphabet {imports : Imports} (img : bytes) :
  (forall w w' s,
     NNRecognizer.recognize img w = (ok s, w') -> all_lower s) /\
  (forall w w' s,
     LegacyRecognizer.recognize img w = (ok s, w') ->
     exists pieces labels,
       legacy_run (self w) img pieces labels /\
       s = join (map str labels) /\
       (Forall (fun l => all_lower (str l)) labels -> all_lower s)).
Proof.
  split; intros w w' s H.
  - apply nn_recognize_inv in H. destruct H as (outs & _ & Hdec).
    eapply captcha_loop_lower; [exact Hdec | constructor].
  - apply legacy_recognize_inv in H. destruct H as (pieces & labels & Hrun & ->).
    exists pieces, labels. split; [exact Hrun |]. split; [reflexivity |].
    apply join_lower.
Qed.

Lemma recognize_alphabet_witness :
  NNRecognizer.recognize Sample.two_pixels (mkWorld Sample.nn_letters []) =
    (ok "az", mkWorld Sample.nn_letters [EvOpen Sample.two_pixels; EvRun "input"]) /\
  all_lower "az".
Proof.
  assert (H : NNRecognizer.recognize Sample.two_pixels (mkWorld Sample.nn_letters []) =
    (ok "az", mkWorld Sample.nn_letters [EvOpen Sample.two_pixels; EvRun "input"]))
    by (vm_compute; reflexivity).
  split; [exact H |].
  exact (proj1 (recognize_alphabet Sample.two_pixels) _ _ _ H).
Defined.

(** C6, as the claim has it, fails for the segmenting recognizer: with a
    classifier whose labels are class numbers the text returned for two
    pixels is made of digits. *)
Lemma legacy_text_of_digits :
  fst (LegacyRecognizer.recognize Sample.two_pixels (mkWorld Sample.legacy_numbers [])) =
    ok "310" /\
  ~ all_lower "310".
Proof.
  split; [vm_compute; reflexivity |].
  unfold all_lower. intros Hall. inversion Hall as [| c rest Hc _]; subst.
  unfold is_lower, ord in Hc. cbn in Hc. lia.
Qed.

(** * Further properties *)

(** ** The decoder on whole lists *)

Lemma argmax_scan_bound (xs : list float32) (best : float32) (besti i : nat) :
  (besti < i)%nat -> (argmax_scan best besti i xs < i + List.length xs)%nat.
Proof.
  revert best besti i. induction xs as [| x xs IH]; intros best besti i Hlt; cbn.
  - lia.
  - destruct (negb (PrimFloat.leb x best)).
    + destruct (PrimFloat.is_nan x); [lia |].
      specialize (IH x i (S i)). lia.
    + specialize (IH best besti (S i)). lia.
Qed.

Lemma argmax_row_bound (row : list float32) (i : nat) :
  argmax_row row = ok i -> (i < List.length row)%nat.
Proof.
  destruct row as [| x xs]; cbn; intros H; [discriminate |].
  injection H as <-.
  destruct (PrimFloat.is_nan x); [lia |].
  pose proof (@argmax_scan_bound xs x 0%nat 1%nat). lia.
Qed.

(** The argmax of a tensor is defined exactly when the tensor is one
    row that is not empty, and then it is an index of that row. *)
Lemma int_argmax_defined (tensor : list (list float32)) :
  (exists i, int_argmax tensor = ok i) <-> (exists x xs, tensor = [x :: xs]).
Proof.
  unfold int_argmax, np_argmax_axis1. split.
  - intros (i & H).
    apply rbind_ok_inv in H. destruct H as (am & Ham & Hint).
    destruct am as [| j [| ? ?]]; cbn in Hint; try discriminate.
    apply rmap_ok_inv in Ham.
    inversion Ham as [| row ? rest ? Hrow Hrest]; subst.
    inversion Hrest; subst.
    destruct row as [| x xs]; [discriminate |].
    exists x, xs. reflexivity.
  - intros (x & xs & ->). cbn. eexists. reflexivity.
Qed.

Lemma int_argmax_row_bound (row : list float32) (i : Z) :
  int_argmax [row] = ok i -> 0 <= i < Z.of_nat (List.length row).
Proof.
  intros H. split; [apply (int_argmax_nonneg _ H) |].
  unfold int_argmax, np_argmax_axis1 in H. cbn [rmap] in H.
  destruct (argmax_row row) as [e | n] eqn:Hrow; [discriminate |].
  cbn in H. injection H as <-.
  apply argmax_row_bound in Hrow. lia.
Qed.

Lemma captcha_step_defined (captcha : string) (tensor : list (list float32)) :
  (exists s, NNRecognizer.captcha_step captcha tensor = ok s) <->
  (exists i, int_argmax tensor = ok i).
Proof.
  split.
  - intros (s & H). destruct (captcha_step_cases _ _ H) as (i & Harg & _).
    exists i. exact Harg.
  - intros (i & Harg). destruct (Z.ltb_spec i 26) as [Hlt | Hge].
    + destruct (captcha_step_letter captcha _ Harg Hlt) as (c & _ & _ & _ & Hstep).
      eexists. exact Hstep.
    + exists captcha. apply (captcha_step_blank captcha _ Harg Hge).
Qed.

(** X1: [_tensor_to_captcha] returns a text exactly when every tensor
    of the list is one row that is not empty; any other tensor makes it
    raise. *)
Theorem tensor_to_captcha_defined (tensors : list (list (list float32))) :
  (exists s, NNRecognizer._tensor_to_captcha tensors = ok s) <->
  Forall (fun t => exists x xs, t = [x :: xs]) tensors.
Proof.
  unfold NNRecognizer._tensor_to_captcha. generalize "" as acc.
  induction tensors as [| t rest IH]; intros acc.
  - split; [constructor | intros _; exists acc; reflexivity].
  - cbn [NNRecognizer.captcha_loop]. split.
    + intros (s & H). apply rbind_ok_inv in H. destruct H as (acc' & Hstep & Hrest).
      constructor.
      * apply int_argmax_defined, (captcha_step_defined acc). exists acc'. exact Hstep.
      * apply (IH acc'). exists s. exact Hrest.
    + intros Hall. inversion Hall as [| ? ? Ht Hrest]; subst.
      apply int_argmax_defined, (captcha_step_defined acc) in Ht.
      destruct Ht as (acc' & Hstep). rewrite Hstep. cbn [rbind ok raise].
      apply IH, Hrest.
Qed.

(** X2: decoding a list of tensors that is made of two lists gives the
    text of the first followed by the text of the second; it raises
    what the first raises, and else what the second raises. *)
Theorem tensor_to_captcha_app (pre post : list (list (list float32))) :
  NNRecognizer._tensor_to_captcha (pre ++ post) =
  (s1 <- NNRecognizer._tensor_to_captcha pre ;;
   s2 <- NNRecognizer._tensor_to_captcha post ;;
   ok (s1 ++ s2)%string)%result.
Proof.
  unfold NNRecognizer._tensor_to_captcha.
  rewrite captcha_loop_app.
  destruct (NNRecognizer.captcha_loop "" pre) as [e | s1]; cbn [rbind ok raise];
    [reflexivity |].
  apply captcha_loop_acc.
Qed.

Lemma captcha_loop_indices (tensors : list (list (list float32))) (idxs : list Z)
    (acc : string) :
  Forall2 (fun t i => int_argmax t = ok i) tensors idxs ->
  NNRecognizer.captcha_loop acc tensors =
  ok (acc ++ string_of_list_ascii
               (map letter_of (filter (fun i => (i <? 26)%Z) idxs)))%string.
Proof.
  intros Hall. revert acc.
  induction Hall as [| t i tensors idxs Harg _ IH]; intros acc.
  - cbn. now rewrite append_nil_r.
  - cbn [NNRecognizer.captcha_loop filter].
    destruct (Z.ltb_spec i 26) as [Hlt | Hge].
    + destruct (captcha_step_letter acc _ Harg Hlt) as (c & Hchr & _ & _ & Hstep).
      rewrite Hstep. cbn [rbind ok raise]. rewrite IH. cbn [map string_of_list_ascii].
      rewrite append_assoc. cbn.
      assert (Hc : c = letter_of i).
      { unfold chr in Hchr. unfold letter_of.
        destruct ((0 <=? ord "a" + i) && (ord "a" + i <? 256)); [| discriminate].
        injection Hchr as <-. reflexivity. }
      rewrite Hc. reflexivity.
    + rewrite (captcha_step_blank acc _ Harg Hge). cbn [rbind ok raise]. apply IH.
Qed.

Lemma string_of_list_ascii_length (l : list ascii) :
  String.length (string_of_list_ascii l) = List.length l.
Proof. induction l as [| c l IH]; cbn; [reflexivity | now rewrite IH]. Qed.

(** X3: when the argmax of the tensors are the indices [idxs], the text
    decoded is made of the letters of those indices that are below 26,
    in their order; it has as many characters as there are such
    indices. *)
Theorem tensor_to_captcha_indices (tensors : list (list (list float32))) (idxs : list Z) :
  Forall2 (fun t i => int_argmax t = ok i) tensors idxs ->
  exists s,
    NNRecognizer._tensor_to_captcha tensors = ok s /\
    s = string_of_list_ascii (map letter_of (filter (fun i => i <? 26) idxs)) /\
    String.length s = List.length (filter (fun i => i <? 26) idxs).
Proof.
  intros Hall. eexists. split; [| split; [reflexivity |]].
  - unfold NNRecognizer._tensor_to_captcha.
    rewrite (captcha_loop_indices "" Hall). reflexivity.
  - rewrite string_of_list_ascii_length. apply length_map.
Qed.

Lemma tensor_to_captcha_indices_witness :
  Forall2 (fun t i => int_argmax t = ok i)
    [[Sample.peak 30 7]; [Sample.peak 30 28]; [Sample.peak 30 8]] [7; 28; 8] /\
  NNRecognizer._tensor_to_captcha
    [[Sample.peak 30 7]; [Sample.peak 30 28]; [Sample.peak 30 8]] = ok "hi".
Proof.
  assert (H : Forall2 (fun t i => int_argmax t = ok i)
    [[Sample.peak 30 7]; [Sample.peak 30 28]; [Sample.peak 30 8]] [7; 28; 8]).
  { repeat constructor; vm_compute; reflexivity. }
  split; [exact H |].
  destruct (tensor_to_captcha_indices H) as (s & Hdec & Hs & _).
  rewrite Hdec, Hs. reflexivity.
Defined.

(** X4: a network with at most 26 labels never gives a blank: when
    every tensor is one row of 1 to 26 scores, whatever the scores, the
    text decoded has exactly one letter per tensor. *)
Theorem tensor_to_captcha_no_blank (tensors : list (list (list float32))) :
  Forall (fun t => exists row, t = [row] /\ (0 < List.length row <= 26)%nat) tensors ->
  exists s,
    NNRecognizer._tensor_to_captcha tensors = ok s /\
    String.length s = List.length tensors /\
    all_lower s.
Proof.
  intros Hall.
  assert (Hidx : exists idxs,
            Forall2 (fun t i => int_argmax t = ok i) tensors idxs /\
            Forall (fun i => i < 26) idxs).
  { induction Hall as [| t rest (row & -> & Hlen) _ (idxs & Hall2 & Hlt)].
    - exists []. split; constructor.
    - destruct (proj2 (int_argmax_defined [row])) as (i & Hi).
      { destruct row as [| x xs]; [cbn in Hlen; lia |]. exists x, xs. reflexivity. }
      exists (i :: idxs). split; constructor; try assumption.
      apply int_argmax_row_bound in Hi. lia. }
  destruct Hidx as (idxs & Hall2 & Hlt).
  assert (Hkeep : filter (fun i => i <? 26) idxs = idxs).
  { clear -Hlt. induction Hlt as [| i idxs Hi _ IH]; cbn; [reflexivity |].
    destruct (Z.ltb_spec i 26); [now rewrite IH | lia]. }
  pose proof (captcha_loop_indices "" Hall2) as Hdec.
  rewrite Hkeep in Hdec. cbn [String.append] in Hdec.
  eexists. split; [exact Hdec |]. split.
  - rewrite string_of_list_ascii_length, length_map.
    symmetry. apply (Forall2_length Hall2).
  - eapply captcha_loop_lower; [exact Hdec | constructor].
Qed.

Lemma tensor_to_captcha_no_blank_witness :
  Forall (fun t => exists row, t = [row] /\ (0 < List.length row <= 26)%nat)
    [[Sample.peak 26 25]; [Sample.peak 3 1]] /\
  exists s,
    NNRecognizer._tensor_to_captcha [[Sample.peak 26 25]; [Sample.peak 3 1]] = ok s /\
    String.length s = 2%nat.
Proof.
  assert (H : Forall (fun t => exists row, t = [row] /\ (0 < List.length row <= 26)%nat)
    [[Sample.peak 26 25]; [Sample.peak 3 1]]).
  { repeat constructor.
    - exists (Sample.peak 26 25). split; [reflexivity | cbn; lia].
    - exists (Sample.peak 3 1). split; [reflexivity | cbn; lia]. }
  split; [exact H |].
  destruct (tensor_to_captcha_no_blank H) as (s & Hdec & Hlen & _).
  exists s. split; [exact Hdec | exact Hlen].
Defined.

(** ** Binarizing and the batch fed to the network *)

(** X5: binarizing an 8-bit picture with the table of a recognizer
    always returns; the result has mode ["1"], the size of the picture
    and as many pixels, and its pixel at each place is 1 when the
    picture has 156 or more there and 0 otherwise. *)
Theorem binarize_two_levels {imports : Imports} (table : list Z) (im : Image) :
  recognizer_table table ->
  Forall is_pixel (getdata im) ->
  exists b,
    point table "1" im = ok b /\
    mode b = "1" /\
    size b = size im /\
    List.length (getdata b) = List.length (getdata im) /\
    Forall (fun v => v = 0 \/ v = 1) (getdata b) /\
    (forall k p, nth_error (getdata im) k = Some p ->
       nth_error (getdata b) k = Some (if 156 <=? p then 1 else 0)).
Proof.
  intros Htab Hpx. rewrite (recognizer_table_eq Htab).
  eexists. split; [apply point_threshold, Hpx |]. cbn [mode size getdata].
  split; [reflexivity |]. split; [reflexivity |].
  split; [apply length_map |].
  split.
  - apply Forall_forall. intros v Hv. apply in_map_iff in Hv.
    destruct Hv as (p & <- & _). destruct (156 <=? p); [right | left]; reflexivity.
  - intros k p Hk. rewrite nth_error_map, Hk. reflexivity.
Qed.

Lemma binarize_two_levels_witness :
  recognizer_table (imports := Sample.letters) (repeat 0 156 ++ repeat 1 100) /\
  Forall is_pixel [155; 156; 0; 255] /\
  exists b,
    point (repeat 0 156 ++ repeat 1 100) "1"
      (mkImage "L" (2%nat, 2%nat) [155; 156; 0; 255]) = ok b /\
    nth_error (getdata b) 1 = Some 1.
Proof.
  assert (H : recognizer_table (imports := Sample.letters) (repeat 0 156 ++ repeat 1 100)).
  { left. exists "svm_model.onnx", Sample.legacy_letters. split; reflexivity. }
  assert (Hpx : Forall is_pixel [155; 156; 0; 255]).
  { repeat constructor; unfold is_pixel; lia. }
  split; [exact H |]. split; [exact Hpx |].
  destruct (binarize_two_levels (mkImage "L" (2%nat, 2%nat) [155; 156; 0; 255]) H Hpx)
    as (b & Hb & _ & _ & _ & _ & Hnth).
  exists b. split; [exact Hb |].
  apply (Hnth 1%nat 156). reflexivity.
Defined.

Lemma rows_of_shape (h w : nat) (data : list Z) :
  List.length data = (h * w)%nat ->
  List.length (rows_of h w data) = h /\
  Forall (fun row => List.length row = w) (rows_of h w data).
Proof.
  revert data. induction h as [| h IH]; intros data Hlen; cbn.
  - split; [reflexivity | constructor].
  - destruct (IH (skipn w data)) as [Hrows Hall].
    { rewrite length_skipn. cbn in Hlen. lia. }
    split; [now rewrite Hrows |].
    constructor; [| exact Hall].
    rewrite length_firstn. cbn in Hlen. lia.
Qed.

(** X6: the batch that [NNRecognizer.recognize] makes of a binarized
    picture of [w] by [h] pixels has shape (1, 1, h, w), and every
    entry of it is 0.0 or 1.0. *)
Theorem nn_batch_shape (binary : Image) (w h : nat) :
  mode binary = "1" ->
  size binary = (w, h) ->
  List.length (getdata binary) = (h * w)%nat ->
  exists rows,
    nn_batch binary = [[rows]] /\
    List.length rows = h /\
    Forall (fun row => List.length row = w) rows /\
    Forall (Forall (fun v => v = 0%float \/ v = 1%float)) rows.
Proof.
  intros Hmode Hsize Hlen.
  exists (np_array_image binary). split; [reflexivity |].
  unfold np_array_image. rewrite Hmode, Hsize. cbn [fst snd String.eqb].
  destruct (rows_of_shape h w (getdata binary) Hlen) as [Hrows Hall].
  split; [now rewrite length_map |].
  split.
  - apply Forall_map. eapply Forall_impl; [| exact Hall].
    intros row Hrow. now rewrite length_map.
  - apply Forall_map. apply Forall_forall. intros row _.
    apply Forall_map. apply Forall_forall. intros p _.
    replace (String.eqb "1" "1") with true by reflexivity.
    destruct (p =? 0); [left | right]; reflexivity.
Qed.

Lemma nn_batch_shape_witness :
  mode (mkImage "1" (3%nat, 2%nat) [0; 1; 1; 0; 0; 1]) = "1" /\
  exists rows,
    nn_batch (mkImage "1" (3%nat, 2%nat) [0; 1; 1; 0; 0; 1]) = [[rows]] /\
    List.length rows = 2%nat.
Proof.
  split; [reflexivity |].
  destruct (@nn_batch_shape (mkImage "1" (3%nat, 2%nat) [0; 1; 1; 0; 0; 1]) 3 2
              eq_refl eq_refl eq_refl) as (rows & Hrows & Hlen & _).
  exists rows. split; [exact Hrows | exact Hlen].
Defined.

(** ** The constructors *)

(** X7: a constructor raises what loading the model raises, and
    otherwise returns a recognizer that holds the session loaded and
    the table.  When loading raises, [LegacyRecognizer.__init__] has
    assigned nothing, and [NNRecognizer.__init__] has assigned the
    table, which it sets before it loads. *)
Theorem constructors_outcome {imports : Imports} (model_file : string) :
  (forall e, rt_InferenceSession model_file = raise e ->
     LegacyRecognizer.new model_file = raise e /\
     NNRecognizer.new model_file = raise e /\
     (forall w, LegacyRecognizer.__init__ model_file w = (raise e, w)) /\
     (forall w, NNRecognizer.__init__ model_file w =
                (raise e,
                 mkWorld (NNRecognizer.mk
                            (Some (repeat 0 156 ++ repeat 1 100))
                            (NNRecognizer._sess (self w)))
                         (trace w)))) /\
  (forall sess, rt_InferenceSession model_file = ok sess ->
     LegacyRecognizer.new model_file =
       ok (LegacyRecognizer.mk (Some sess) (Some (repeat 0 156 ++ repeat 1 100))) /\
     NNRecognizer.new model_file =
       ok (NNRecognizer.mk (Some (repeat 0 156 ++ repeat 1 100)) (Some sess))).
Proof.
  split.
  - intros e Hload.
    unfold LegacyRecognizer.new, NNRecognizer.new,
      LegacyRecognizer.__init__, NNRecognizer.__init__, bind, lift, setattr.
    cbn [self trace]. rewrite Hload.
    repeat split; intros [o t]; reflexivity.
  - intros sess Hload.
    unfold LegacyRecognizer.new, NNRecognizer.new,
      LegacyRecognizer.__init__, NNRecognizer.__init__, bind, lift, setattr.
    cbn [self trace]. rewrite Hload. split; reflexivity.
Qed.

Lemma constructors_outcome_witness :
  rt_InferenceSession (Imports := Sample.letters) "" = raise RuntimeException /\
  LegacyRecognizer.new (imports := Sample.letters) "" = raise RuntimeException /\
  NNRecognizer.new (imports := Sample.letters) "" = raise RuntimeException.
Proof.
  assert (H : rt_InferenceSession (Imports := Sample.letters) "" = raise RuntimeException)
    by reflexivity.
  split; [exact H |].
  destruct (proj1 (constructors_outcome (imports := Sample.letters) "") _ H)
    as (Hl & Hn & _).
  split; [exact Hl | exact Hn].
Defined.

(** ** Calls of [NNRecognizer.recognize], step by step *)

(** Once the picture is binarized and the session has a first input,
    the call runs the session once and decodes what it returns. *)
Lemma nn_recognize_run {imports : Imports} (r : NNRecognizer.t) (img : bytes)
    (binary : Image) (sess : InferenceSession) (input : NodeArg) (calls : list event) :
  nn_prepared r img binary ->
  NNRecognizer._sess r = Some sess ->
  getitem (get_inputs sess) 0 = ok input ->
  NNRecognizer.recognize img (mkWorld r calls) =
  ((outs <- run_network sess [(name input, nn_batch binary)] ;;
    NNRecognizer._tensor_to_captcha outs)%result,
   mkWorld r (calls ++ [EvOpen img; EvRun (name input)])).
Proof.
  intros (table & opened & grey & Htable & Hopen & Hgrey & Hbin) Hsess Hinput.
  unfold NNRecognizer.recognize, open_image, run_first_input, nn_batch,
    bind, emit, lift, getattr, ret.
  unfold ok in *. cbn [self trace].
  rewrite Hopen. cbv beta iota. rewrite Hgrey. cbv beta iota.
  cbn [self trace]. rewrite Htable. cbv beta iota. rewrite Hbin. cbv beta iota zeta.
  cbn [self trace]. rewrite Hsess. cbv beta iota. rewrite Hinput. cbv beta iota.
  cbn [self trace]. rewrite <- app_assoc. cbn [app].
  destruct (run_network sess _) as [e | outs]; cbn [rbind]; [reflexivity |].
  destruct (NNRecognizer._tensor_to_captcha outs); reflexivity.
Qed.

(** X8: [NNRecognizer.recognize] returns [s] exactly when the picture
    decodes and binarizes, the session has a first input, the run of
    the session on the batch returns tensors, and these decode to [s];
    the calls it made are then one call of the decoder and one run of
    the session, and the recognizer is as before. *)
Theorem nn_recognize_returns {imports : Imports} (img : bytes)
    (w w' : world NNRecognizer.t) (s : string) :
  NNRecognizer.recognize img w = (ok s, w') <->
  exists binary sess input outs,
    nn_prepared (self w) img binary /\
    NNRecognizer._sess (self w) = Some sess /\
    getitem (get_inputs sess) 0 = ok input /\
    run_network sess [(name input, nn_batch binary)] = ok outs /\
    NNRecognizer._tensor_to_captcha outs = ok s /\
    w' = mkWorld (self w) (trace w ++ [EvOpen img; EvRun (name input)]).
Proof.
  split.
  - intros H. destruct (nn_recognize_inv _ _ H) as (outs & Hrun & Hdec).
    destruct Hrun as (sess & table & opened & grey & binary & input &
                      Hsess & Htable & Hopen & Hgrey & Hbin & Hinput & Hrun).
    assert (Hprep : nn_prepared (self w) img binary).
    { exists table, opened, grey. repeat split; assumption. }
    exists binary, sess, input, outs.
    repeat split; try assumption.
    destruct w as [r calls]. cbn [self trace] in *.
    rewrite (nn_recognize_run calls Hprep Hsess Hinput) in H.
    injection H as _ <-. reflexivity.
  - intros (binary & sess & input & outs & Hprep & Hsess & Hinput & Hrun & Hdec & ->).
    destruct w as [r calls]. cbn [self trace] in *.
    rewrite (nn_recognize_run calls Hprep Hsess Hinput), Hrun. cbn [rbind ok raise].
    rewrite Hdec. reflexivity.
Qed.

Lemma nn_recognize_returns_witness :
  NNRecognizer.recognize Sample.two_pixels (mkWorld Sample.nn_letters []) =
    (ok "az", mkWorld Sample.nn_letters [EvOpen Sample.two_pixels; EvRun "input"]) /\
  exists binary sess input outs,
    nn_prepared Sample.nn_letters Sample.two_pixels binary /\
    NNRecognizer._sess Sample.nn_letters = Some sess /\
    getitem (get_inputs sess) 0 = ok input /\
    run_network sess [(name input, nn_batch binary)] = ok outs /\
    NNRecognizer._tensor_to_captcha outs = ok "az" /\
    mkWorld Sample.nn_letters [EvOpen Sample.two_pixels; EvRun "input"] =
    mkWorld Sample.nn_letters ([] ++ [EvOpen Sample.two_pixels; EvRun (name input)]).
Proof.
  assert (H : NNRecognizer.recognize Sample.two_pixels (mkWorld Sample.nn_letters []) =
    (ok "az", mkWorld Sample.nn_letters [EvOpen Sample.two_pixels; EvRun "input"]))
    by (vm_compute; reflexivity).
  split; [exact H |].
  exact (proj1 (nn_recognize_returns _ _ _ _) H).
Defined.

(** X9: once the picture is binarized, [NNRecognizer.recognize] raises
    [IndexError] without running the session when the session has no
    input; it raises what the run raises; and it raises what the
    decoder raises on the tensors returned.  The decoder is called once,
    the session at most once, and the recognizer is as before. *)
Theorem nn_recognize_raises {imports : Imports} (r : NNRecognizer.t) (img : bytes)
    (binary : Image) (sess : InferenceSession) (calls : list event) :
  nn_prepared r img binary ->
  NNRecognizer._sess r = Some sess ->
  (get_inputs sess = [] ->
     NNRecognizer.recognize img (mkWorld r calls) =
     (raise IndexError, mkWorld r (calls ++ [EvOpen img]))) /\
  (forall input e,
     getitem (get_inputs sess) 0 = ok input ->
     run_network sess [(name input, nn_batch binary)] = raise e ->
     NNRecognizer.recognize img (mkWorld r calls) =
     (raise e, mkWorld r (calls ++ [EvOpen img; EvRun (name input)]))) /\
  (forall input outs e,
     getitem (get_inputs sess) 0 = ok input ->
     run_network sess [(name input, nn_batch binary)] = ok outs ->
     NNRecognizer._tensor_to_captcha outs = raise e ->
     NNRecognizer.recognize img (mkWorld r calls) =
     (raise e, mkWorld r (calls ++ [EvOpen img; EvRun (name input)]))).
Proof.
  intros Hprep Hsess. split; [| split].
  - intros Hnone.
    destruct Hprep as (table & opened & grey & Htable & Hopen & Hgrey & Hbin).
    unfold NNRecognizer.recognize, open_image, run_first_input,
      bind, emit, lift, getattr, ret, getitem.
    unfold ok in *. cbn [self trace].
    rewrite Hopen. cbv beta iota. rewrite Hgrey. cbv beta iota.
    cbn [self trace]. rewrite Htable. cbv beta iota. rewrite Hbin. cbv beta iota zeta.
    cbn [self trace]. rewrite Hsess. cbv beta iota. rewrite Hnone.
    reflexivity.
  - intros input e Hinput Hrun.
    rewrite (nn_recognize_run calls Hprep Hsess Hinput), Hrun. reflexivity.
  - intros input outs e Hinput Hrun Hdec.
    rewrite (nn_recognize_run calls Hprep Hsess Hinput), Hrun. cbn [rbind ok raise].
    rewrite Hdec. reflexivity.
Qed.

Lemma nn_recognize_raises_witness :
  nn_prepared (Faulty.nn Faulty.no_output (Some "nn_model.onnx")) Sample.two_pixels
    (mkImage "1" (2%nat, 1%nat) [0; 1]) /\
  NNRecognizer.recognize Sample.two_pixels
    (mkWorld (Faulty.nn Faulty.no_output (Some "nn_model.onnx")) []) =
  (raise TypeError,
   mkWorld (Faulty.nn Faulty.no_output (Some "nn_model.onnx"))
     [EvOpen Sample.two_pixels; EvRun "input"]).
Proof.
  assert (H : nn_prepared (Faulty.nn Faulty.no_output (Some "nn_model.onnx"))
                Sample.two_pixels (mkImage "1" (2%nat, 1%nat) [0; 1])).
  { exists Faulty.table, (mkImage "L" (2%nat, 1%nat) [16; 200]),
           (mkImage "L" (2%nat, 1%nat) [16; 200]).
    repeat split. }
  split; [exact H |].
  apply (proj2 (proj2 (nn_recognize_raises (imports := Faulty.no_output)
                         (sess := "nn_model.onnx") [] H eq_refl))
           (mkNodeArg "input") [[]] TypeError); reflexivity.
Defined.

(** ** Calls of [LegacyRecognizer.recognize], step by step *)

Lemma rmap_ok {A B : Type} (f : A -> result B) (xs : list A) (ys : list B) :
  Forall2 (fun x y => f x = ok y) xs ys -> rmap f xs = ok ys.
Proof.
  induction 1 as [| x y xs ys Hxy _ IH]; cbn; [reflexivity |].
  rewrite Hxy. cbn [rbind ok raise]. rewrite IH. reflexivity.
Qed.

Lemma rmap_raises {A B : Type} (f : A -> result B)
    (pre post : list A) (x : A) (ys : list B) (e : exception) :
  Forall2 (fun x y => f x = ok y) pre ys ->
  f x = raise e ->
  rmap f (pre ++ x :: post) = raise e.
Proof.
  intros Hpre Hx. induction Hpre as [| a y pre ys Hay _ IH]; cbn.
  - rewrite Hx. reflexivity.
  - rewrite Hay. cbn [rbind ok raise]. rewrite IH. reflexivity.
Qed.

Section LegacySteps.

Context {imports : Imports}.
Variable r : LegacyRecognizer.t.
Variable sess : InferenceSession.
Variable input : NodeArg.
Hypothesis Hclr : LegacyRecognizer._clr r = Some sess.
Hypothesis Hinput : getitem (get_inputs sess) 0 = ok input.

Lemma predict_segment_run (x : list float32) (calls : list event) :
  LegacyRecognizer.predict_segment x (mkWorld r calls) =
  (run_classifier sess [(name input, x)], mkWorld r (calls ++ [EvRun (name input)])).
Proof.
  unfold LegacyRecognizer.predict_segment, run_first_input, bind, emit, lift, getattr.
  cbn [self trace]. rewrite Hclr. cbv beta iota. unfold ok in *. rewrite Hinput.
  cbv beta iota. cbn [self trace].
  destruct (run_classifier sess _); reflexivity.
Qed.

(** The comprehension over the segments when every run returns. *)
Lemma mmap_predict_ok (xs : list (list float32)) (ps : list (list (list label)))
    (calls : list event) :
  Forall2 (fun x p => run_classifier sess [(name input, x)] = ok p) xs ps ->
  mmap LegacyRecognizer.predict_segment xs (mkWorld r calls) =
  (ok ps, mkWorld r (calls ++ repeat (EvRun (name input)) (List.length xs))).
Proof.
  intros Hall. revert calls.
  induction Hall as [| x p xs ps Hxp _ IH]; intros calls; cbn [mmap List.length repeat].
  - unfold ret. rewrite app_nil_r. reflexivity.
  - unfold bind at 1. rewrite predict_segment_run, Hxp. unfold ok at 1.
    unfold bind at 1. rewrite IH. unfold ok at 1. unfold ret.
    rewrite <- app_assoc. reflexivity.
Qed.

(** The comprehension over the segments when a run raises: the runs
    before it and this one were made, no later one. *)
Lemma mmap_predict_raises (pre post : list (list float32)) (x : list float32)
    (ps : list (list (list label))) (e : exception) (calls : list event) :
  Forall2 (fun x p => run_classifier sess [(name input, x)] = ok p) pre ps ->
  run_classifier sess [(name input, x)] = raise e ->
  mmap LegacyRecognizer.predict_segment (pre ++ x :: post) (mkWorld r calls) =
  (raise e, mkWorld r (calls ++ repeat (EvRun (name input)) (S (List.length pre)))).
Proof.
  intros Hpre Hx. revert calls.
  induction Hpre as [| a p pre ps Hap _ IH]; intros calls;
    cbn [app mmap List.length repeat].
  - unfold bind at 1. rewrite predict_segment_run, Hx. reflexivity.
  - unfold bind at 1. rewrite predict_segment_run, Hap. unfold ok at 1.
    unfold bind at 1. rewrite IH. unfold raise at 1.
    rewrite <- app_assoc. reflexivity.
Qed.

End LegacySteps.

(** Once the picture is cut into pieces, the call goes on with the
    three comprehensions and the join. *)
Lemma legacy_recognize_prepared {imports : Imports} (r : LegacyRecognizer.t)
    (img : bytes) (pieces : list Image) (calls : list event) :
  legacy_prepared r img pieces ->
  LegacyRecognizer.recognize img (mkWorld r calls) =
  (segments <- lift (rmap LegacyRecognizer.segment_data pieces) ;;
   predicts <- mmap LegacyRecognizer.predict_segment (map np_array_1d segments) ;;
   texts <- lift (rmap LegacyRecognizer.predict_text predicts) ;;
   ret (join texts))%method (mkWorld r (calls ++ [EvOpen img])).
Proof.
  intros (table & opened & grey & binary & Htable & Hopen & Hgrey & Hbin & Hsplit).
  unfold LegacyRecognizer.recognize, open_image, bind, emit, lift, getattr.
  unfold ok in *. cbn [self trace].
  rewrite Hopen. cbv beta iota. rewrite Hgrey. cbv beta iota.
  cbn [self trace]. rewrite Htable. cbv beta iota. rewrite Hbin. cbv beta iota.
  rewrite Hsplit. reflexivity.
Qed.

Lemma legacy_recognize_segments {imports : Imports} (r : LegacyRecognizer.t)
    (img : bytes) (pieces : list Image) (segments : list (list Z))
    (calls : list event) :
  legacy_prepared r img pieces ->
  Forall2 (fun piece data => LegacyRecognizer.segment_data piece = ok data)
          pieces segments ->
  LegacyRecognizer.recognize img (mkWorld r calls) =
  (predicts <- mmap LegacyRecognizer.predict_segment (map np_array_1d segments) ;;
   texts <- lift (rmap LegacyRecognizer.predict_text predicts) ;;
   ret (join texts))%method (mkWorld r (calls ++ [EvOpen img])).
Proof.
  intros Hprep Hseg.
  rewrite (legacy_recognize_prepared calls Hprep).
  unfold bind at 1, lift at 1. rewrite (rmap_ok _ Hseg). reflexivity.
Qed.

Lemma predict_text_raises (predicts : list (list (list label))) (e : exception) :
  rmap LegacyRecognizer.predict_text predicts = raise e -> e = IndexError.
Proof.
  induction predicts as [| p predicts IH]; cbn [rmap]; intros H; [discriminate |].
  destruct (LegacyRecognizer.predict_text p) as [e' | t] eqn:Hp.
  - cbn in H. injection H as <-.
    destruct p as [| [| l labels] rest]; cbn in Hp;
      solve [discriminate | injection Hp as <-; reflexivity].
  - cbn [rbind ok raise] in H.
    destruct (rmap LegacyRecognizer.predict_text predicts) as [e' | ts];
      [| discriminate].
    cbn in H. injection H as <-. apply IH. reflexivity.
Qed.

(** X10: when the split routine finds no segment, the call returns the
    empty text after the one call of the decoder; no session is run,
    and none is needed. *)
Theorem legacy_recognize_no_segments {imports : Imports} (r : LegacyRecognizer.t)
    (img : bytes) (calls : list event) :
  legacy_prepared r img [] ->
  LegacyRecognizer.recognize img (mkWorld r calls) =
  (ok "", mkWorld r (calls ++ [EvOpen img])).
Proof.
  intros Hprep. rewrite (legacy_recognize_prepared calls Hprep). reflexivity.
Qed.

Lemma legacy_recognize_no_segments_witness :
  legacy_prepared (Faulty.legacy Faulty.no_pieces None) Sample.one_pixel [] /\
  LegacyRecognizer.recognize Sample.one_pixel
    (mkWorld (Faulty.legacy Faulty.no_pieces None) []) =
  (ok "", mkWorld (Faulty.legacy Faulty.no_pieces None) [EvOpen Sample.one_pixel]).
Proof.
  assert (H : legacy_prepared (Faulty.legacy Faulty.no_pieces None) Sample.one_pixel []).
  { exists Faulty.table, (mkImage "L" (1%nat, 1%nat) [200]),
           (mkImage "L" (1%nat, 1%nat) [200]), (mkImage "1" (1%nat, 1%nat) [1]).
    repeat split. }
  split; [exact H |].
  exact (legacy_recognize_no_segments [] H).
Defined.

(** X11: every segment is normalized before the classifier is run at
    all: when normalizing a segment raises, the call raises that
    exception and no session was run, whatever the segments before
    it. *)
Theorem legacy_recognize_segment_failure {imports : Imports} (r : LegacyRecognizer.t)
    (img : bytes) (pre post : list Image) (piece : Image)
    (datas : list (list Z)) (e : exception) (calls : list event) :
  legacy_prepared r img (pre ++ piece :: post) ->
  Forall2 (fun p data => LegacyRecognizer.segment_data p = ok data) pre datas ->
  LegacyRecognizer.segment_data piece = raise e ->
  LegacyRecognizer.recognize img (mkWorld r calls) =
  (raise e, mkWorld r (calls ++ [EvOpen img])).
Proof.
  intros Hprep Hpre Hpiece.
  rewrite (legacy_recognize_prepared calls Hprep).
  unfold bind at 1, lift at 1.
  rewrite (rmap_raises _ post piece Hpre Hpiece). reflexivity.
Qed.

Lemma legacy_recognize_segment_failure_witness :
  legacy_prepared (Faulty.legacy Faulty.no_normalize (Some "svm_model.onnx"))
    Sample.two_pixels
    ([] ++ mkImage "1" (1%nat, 1%nat) [0] :: [mkImage "1" (1%nat, 1%nat) [1]]) /\
  LegacyRecognizer.recognize Sample.two_pixels
    (mkWorld (Faulty.legacy Faulty.no_normalize (Some "svm_model.onnx")) []) =
  (raise ValueError,
   mkWorld (Faulty.legacy Faulty.no_normalize (Some "svm_model.onnx"))
     [EvOpen Sample.two_pixels]).
Proof.
  assert (H : legacy_prepared (Faulty.legacy Faulty.no_normalize (Some "svm_model.onnx"))
    Sample.two_pixels
    ([] ++ mkImage "1" (1%nat, 1%nat) [0] :: [mkImage "1" (1%nat, 1%nat) [1]])).
  { exists Faulty.table, (mkImage "L" (2%nat, 1%nat) [16; 200]),
           (mkImage "L" (2%nat, 1%nat) [16; 200]), (mkImage "1" (2%nat, 1%nat) [0; 1]).
    repeat split. }
  split; [exact H |].
  eapply (legacy_recognize_segment_failure (imports := Faulty.no_normalize));
    [exact H | constructor | reflexivity].
Defined.

(** X12: the segments are run through the classifier one after the
    other and a run that raises ends the call: the call raises that
    exception, the runs made are those of the segments before and this
    one, and no later segment is run.  When the session has no input,
    the call raises [IndexError] at the first segment without a run. *)
Theorem legacy_recognize_run_failure {imports : Imports} (r : LegacyRecognizer.t)
    (img : bytes) (pieces : list Image) (sess : InferenceSession)
    (calls : list event) :
  legacy_prepared r img pieces ->
  LegacyRecognizer._clr r = Some sess ->
  (forall input pre post data predicts e,
     getitem (get_inputs sess) 0 = ok input ->
     Forall2 (fun piece d => LegacyRecognizer.segment_data piece = ok d)
             pieces (pre ++ data :: post) ->
     Forall2 (fun x p => run_classifier sess [(name input, x)] = ok p)
             (map np_array_1d pre) predicts ->
     run_classifier sess [(name input, np_array_1d data)] = raise e ->
     LegacyRecognizer.recognize img (mkWorld r calls) =
     (raise e,
      mkWorld r (calls ++ EvOpen img :: repeat (EvRun (name input)) (S (List.length pre))))) /\
  (forall segments,
     get_inputs sess = [] ->
     pieces <> [] ->
     Forall2 (fun piece d => LegacyRecognizer.segment_data piece = ok d)
             pieces segments ->
     LegacyRecognizer.recognize img (mkWorld r calls) =
     (raise IndexError, mkWorld r (calls ++ [EvOpen img]))).
Proof.
  intros Hprep Hclr. split.
  - intros input pre post data predicts e Hinput Hseg Hpre Hrun.
    rewrite (legacy_recognize_segments calls Hprep Hseg).
    rewrite map_app. cbn [map].
    unfold bind at 1.
    rewrite (mmap_predict_raises r Hclr Hinput (map np_array_1d post)
               (np_array_1d data) (calls ++ [EvOpen img]) Hpre Hrun).
    rewrite length_map, <- app_assoc. reflexivity.
  - intros segments Hnone Hne Hseg.
    rewrite (legacy_recognize_segments calls Hprep Hseg).
    destruct Hseg as [| piece d pieces segments _ _]; [contradiction |].
    cbn [map mmap]. unfold bind at 1.
    unfold LegacyRecognizer.predict_segment, run_first_input, getitem,
      bind, emit, lift, getattr.
    cbn [self trace]. rewrite Hclr. cbv beta iota delta [ok]. rewrite Hnone.
    reflexivity.
Qed.

Lemma legacy_recognize_run_failure_witness :
  legacy_prepared (Faulty.legacy Faulty.no_run (Some "svm_model.onnx"))
    Faulty.three_pixels
    [mkImage "1" (1%nat, 1%nat) [0]; mkImage "1" (1%nat, 1%nat) [1];
     mkImage "1" (1%nat, 1%nat) [0]] /\
  LegacyRecognizer.recognize Faulty.three_pixels
    (mkWorld (Faulty.legacy Faulty.no_run (Some "svm_model.onnx")) []) =
  (raise RuntimeException,
   mkWorld (Faulty.legacy Faulty.no_run (Some "svm_model.onnx"))
     [EvOpen Faulty.three_pixels; EvRun "input"; EvRun "input"]).
Proof.
  assert (H : legacy_prepared (Faulty.legacy Faulty.no_run (Some "svm_model.onnx"))
    Faulty.three_pixels
    [mkImage "1" (1%nat, 1%nat) [0]; mkImage "1" (1%nat, 1%nat) [1];
     mkImage "1" (1%nat, 1%nat) [0]]).
  { exists Faulty.table, (mkImage "L" (3%nat, 1%nat) [16; 200; 32]),
           (mkImage "L" (3%nat, 1%nat) [16; 200; 32]),
           (mkImage "1" (3%nat, 1%nat) [0; 1; 0]).
    repeat split. }
  split; [exact H |].
  apply (proj1 (legacy_recognize_run_failure (imports := Faulty.no_run)
                  (sess := "svm_model.onnx") [] H eq_refl)
           (mkNodeArg "input") [[0]] [[0]] [255] [[[LStr "a"]]] RuntimeException).
  - reflexivity.
  - repeat constructor.
  - repeat constructor.
  - reflexivity.
Defined.

(** X13: the labels are read after every segment was run: when all
    runs return and one of them has no first output, or a first output
    without an element, the call raises [IndexError] and the classifier
    was run once per segment. *)
Theorem legacy_recognize_no_label {imports : Imports} (r : LegacyRecognizer.t)
    (img : bytes) (pieces : list Image) (sess : InferenceSession) (input : NodeArg)
    (segments : list (list Z)) (predicts : list (list (list label)))
    (e : exception) (calls : list event) :
  legacy_prepared r img pieces ->
  LegacyRecognizer._clr r = Some sess ->
  getitem (get_inputs sess) 0 = ok input ->
  Forall2 (fun piece d => LegacyRecognizer.segment_data piece = ok d) pieces segments ->
  Forall2 (fun x p => run_classifier sess [(name input, x)] = ok p)
          (map np_array_1d segments) predicts ->
  rmap LegacyRecognizer.predict_text predicts = raise e ->
  e = IndexError /\
  LegacyRecognizer.recognize img (mkWorld r calls) =
  (raise IndexError,
   mkWorld r (calls ++ EvOpen img :: repeat (EvRun (name input)) (List.length pieces))).
Proof.
  intros Hprep Hclr Hinput Hseg Hrun Htext.
  pose proof (predict_text_raises _ Htext) as ->.
  split; [reflexivity |].
  rewrite (legacy_recognize_segments calls Hprep Hseg).
  unfold bind at 1. rewrite (mmap_predict_ok r Hclr Hinput (calls ++ [EvOpen img]) Hrun).
  unfold ok at 1. unfold bind at 1, lift at 1. rewrite Htext.
  rewrite length_map, <- (Forall2_length Hseg), <- app_assoc. reflexivity.
Qed.

Lemma legacy_recognize_no_label_witness :
  legacy_prepared (Faulty.legacy Faulty.no_output (Some "svm_model.onnx"))
    Sample.two_pixels
    [mkImage "1" (1%nat, 1%nat) [0]; mkImage "1" (1%nat, 1%nat) [1]] /\
  LegacyRecognizer.recognize Sample.two_pixels
    (mkWorld (Faulty.legacy Faulty.no_output (Some "svm_model.onnx")) []) =
  (raise IndexError,
   mkWorld (Faulty.legacy Faulty.no_output (Some "svm_model.onnx"))
     [EvOpen Sample.two_pixels; EvRun "input"; EvRun "input"]).
Proof.
  assert (H : legacy_prepared (Faulty.legacy Faulty.no_output (Some "svm_model.onnx"))
    Sample.two_pixels
    [mkImage "1" (1%nat, 1%nat) [0]; mkImage "1" (1%nat, 1%nat) [1]]).
  { exists Faulty.table, (mkImage "L" (2%nat, 1%nat) [16; 200]),
           (mkImage "L" (2%nat, 1%nat) [16; 200]), (mkImage "1" (2%nat, 1%nat) [0; 1]).
    repeat split. }
  split; [exact H |].
  apply (proj2 (legacy_recognize_no_label (imports := Faulty.no_output)
                  (sess := "svm_model.onnx") (input := mkNodeArg "input")
                  (segments := [[0]; [255]]) (predicts := [[]; []])
                  (e := IndexError) [] H eq_refl eq_refl
                  ltac:(repeat constructor) ltac:(repeat constructor) eq_refl)).
Defined.

(** The stages behind the labels of the segments, for a session with a
    first input. *)
Lemma legacy_stages {imports : Imports} (sess : InferenceSession) (input : NodeArg)
    (pieces : list Image) (labels : list label) :
  getitem (get_inputs sess) 0 = ok input ->
  Forall2 (fun piece l => segment_label sess piece = ok l) pieces labels ->
  exists segments predicts,
    Forall2 (fun piece d => LegacyRecognizer.segment_data piece = ok d)
            pieces segments /\
    Forall2 (fun x p => run_classifier sess [(name input, x)] = ok p)
            (map np_array_1d segments) predicts /\
    Forall2 (fun p t => LegacyRecognizer.predict_text p = ok t)
            predicts (map str labels).
Proof.
  intros Hinput Hall.
  induction Hall as [| piece l pieces labels Hl _ (segments & predicts & Hs & Hr & Ht)].
  - exists [], []. repeat split; constructor.
  - unfold segment_label in Hl.
    apply rbind_ok_inv in Hl. destruct Hl as (d & Hd & Hl).
    rewrite Hinput in Hl. cbn [rbind ok raise] in Hl.
    apply rbind_ok_inv in Hl. destruct Hl as (p & Hp & Hl).
    exists (d :: segments), (p :: predicts).
    split; [constructor; assumption |].
    split; [cbn [map]; constructor; assumption |].
    cbn [map]. constructor; [| exact Ht].
    unfold LegacyRecognizer.predict_text.
    destruct (getitem p 0) as [e | first]; [discriminate |].
    cbn [rbind ok raise] in Hl |- *. rewrite Hl. reflexivity.
Qed.

Lemma legacy_runs_none {imports : Imports} (r : LegacyRecognizer.t) :
  legacy_runs r 0 = [].
Proof.
  unfold legacy_runs. destruct (LegacyRecognizer._clr r) as [sess |]; [| reflexivity].
  destruct (get_inputs sess); reflexivity.
Qed.

(** A call that goes through all its stages returns the joined labels
    after one run per segment. *)
Lemma legacy_recognize_complete {imports : Imports} (r : LegacyRecognizer.t)
    (img : bytes) (pieces : list Image) (labels : list label) (calls : list event) :
  legacy_run r img pieces labels ->
  LegacyRecognizer.recognize img (mkWorld r calls) =
  (ok (join (map str labels)),
   mkWorld r (calls ++ EvOpen img :: legacy_runs r (List.length pieces))).
Proof.
  intros (table & opened & grey & binary & Htable & Hopen & Hgrey & Hbin & Hsplit & Hall).
  assert (Hprep : legacy_prepared r img pieces).
  { exists table, opened, grey, binary. repeat split; assumption. }
  destruct Hall as [| piece l pieces labels (sess & Hclr & Hl) Hrest].
  - rewrite (legacy_recognize_prepared calls Hprep).
    cbn [List.length]. rewrite legacy_runs_none. reflexivity.
  - assert (Hinput : exists input, getitem (get_inputs sess) 0 = ok input).
    { unfold segment_label in Hl.
      apply rbind_ok_inv in Hl. destruct Hl as (d & _ & Hl).
      apply rbind_ok_inv in Hl. destruct Hl as (input & Hinput & _).
      exists input. exact Hinput. }
    destruct Hinput as (input & Hinput).
    assert (Hall : Forall2 (fun piece l => segment_label sess piece = ok l)
                     (piece :: pieces) (l :: labels)).
    { constructor; [exact Hl |].
      eapply Forall2_impl; [| exact Hrest].
      intros p' l' (sess' & Hclr' & Hl'). rewrite Hclr in Hclr'.
      injection Hclr' as <-. exact Hl'. }
    destruct (@legacy_stages imports sess input _ _ Hinput Hall) as (segments & predicts & Hs & Hr & Ht).
    rewrite (legacy_recognize_segments calls Hprep Hs).
    unfold bind at 1. rewrite (mmap_predict_ok r Hclr Hinput (calls ++ [EvOpen img]) Hr).
    unfold ok at 1. unfold bind at 1, lift at 1. rewrite (rmap_ok _ Ht).
    unfold ok at 1. unfold ret.
    rewrite length_map, <- (Forall2_length Hs), <- app_assoc.
    unfold legacy_runs. rewrite Hclr.
    unfold getitem in Hinput.
    destruct (get_inputs sess) as [| input' rest]; [discriminate |].
    cbn in Hinput. injection Hinput as ->. reflexivity.
Qed.

(** X14: [LegacyRecognizer.recognize] returns [s] exactly when the
    picture decodes, binarizes and is cut into segments, every segment
    is normalized and labelled by a run of the classifier, and [s] is
    the string forms of the labels joined in the order of the segments;
    the calls it made are then one call of the decoder followed by one
    run of the session per segment, and the recognizer is as before. *)
Theorem legacy_recognize_returns {imports : Imports} (img : bytes)
    (w w' : world LegacyRecognizer.t) (s : string) :
  LegacyRecognizer.recognize img w = (ok s, w') <->
  exists pieces labels,
    legacy_run (self w) img pieces labels /\
    s = join (map str labels) /\
    w' = mkWorld (self w)
           (trace w ++ EvOpen img :: legacy_runs (self w) (List.length pieces)).
Proof.
  destruct w as [r calls]. cbn [self trace]. split.
  - intros H.
    destruct (legacy_recognize_inv _ _ H) as (pieces & labels & Hrun & ->).
    cbn [self] in Hrun.
    exists pieces, labels. split; [exact Hrun |]. split; [reflexivity |].
    rewrite (legacy_recognize_complete calls Hrun) in H.
    injection H as <-. reflexivity.
  - intros (pieces & labels & Hrun & -> & ->).
    apply legacy_recognize_complete, Hrun.
Qed.

Lemma legacy_recognize_returns_witness :
  LegacyRecognizer.recognize Sample.two_pixels (mkWorld Sample.legacy_letters []) =
    (ok "ab",
     mkWorld Sample.legacy_letters
       [EvOpen Sample.two_pixels; EvRun "input"; EvRun "input"]) /\
  exists pieces labels,
    legacy_run Sample.legacy_letters Sample.two_pixels pieces labels /\
    "ab" = join (map str labels) /\
    mkWorld Sample.legacy_letters
      [EvOpen Sample.two_pixels; EvRun "input"; EvRun "input"] =
    mkWorld Sample.legacy_letters
      ([] ++ EvOpen Sample.two_pixels ::
             legacy_runs Sample.legacy_letters (List.length pieces)).
Proof.
  assert (H : LegacyRecognizer.recognize Sample.two_pixels (mkWorld Sample.legacy_letters []) =
    (ok "ab",
     mkWorld Sample.legacy_letters
       [EvOpen Sample.two_pixels; EvRun "input"; EvRun "input"]))
    by (vm_compute; reflexivity).
  split; [exact H |].
  exact (proj1 (legacy_recognize_returns _ _ _ _) H).
Defined.

(** ** Two calls of [recognize] *)

Section NondetLemmas.

Variable Self : Type.

Lemma deterministic_ret {A : Type} (a : A) :
  Nondet.deterministic (Nondet.ret (Self := Self) a).
Proof. intros s o1 o2 H1 H2. unfold Nondet.ret in *. congruence. Qed.

Lemma deterministic_lift {A : Type} (r : result A) :
  Nondet.deterministic (Nondet.lift (Self := Self) r).
Proof. intros s o1 o2 H1 H2. unfold Nondet.lift in *. congruence. Qed.

Lemma deterministic_getattr {A : Type} (field : Self -> option A) :
  Nondet.deterministic (Nondet.getattr field).
Proof. intros s o1 o2 H1 H2. unfold Nondet.getattr in *. congruence. Qed.

Lemma deterministic_setattr {A : Type} (store : option A -> Self -> Self) (v : A) :
  Nondet.deterministic (Nondet.setattr store v).
Proof. intros s o1 o2 H1 H2. unfold Nondet.setattr in *. congruence. Qed.

Lemma deterministic_call {A : Type} (c : Nondet.N A) :
  Nondet.functional c -> Nondet.deterministic (Nondet.call (Self := Self) c).
Proof.
  intros Hc s o1 o2 (r1 & H1 & ->) (r2 & H2 & ->).
  rewrite (Hc _ _ H1 H2). reflexivity.
Qed.

Lemma deterministic_bind {A B : Type} (m : Nondet.M Self A) (k : A -> Nondet.M Self B) :
  Nondet.deterministic m -> (forall a, Nondet.deterministic (k a)) ->
  Nondet.deterministic (Nondet.bind m k).
Proof.
  intros Hm Hk s o1 o2
    [(e1 & s1 & H1 & ->) | (a1 & s1 & H1 & K1)]
    [(e2 & s2 & H2 & ->) | (a2 & s2 & H2 & K2)].
  - pose proof (Hm _ _ _ H1 H2) as E. injection E as <- <-. reflexivity.
  - pose proof (Hm _ _ _ H1 H2) as E. discriminate E.
  - pose proof (Hm _ _ _ H1 H2) as E. discriminate E.
  - pose proof (Hm _ _ _ H1 H2) as E. injection E as <- <-.
    apply (Hk _ _ _ _ K1 K2).
Qed.

Lemma deterministic_mmap {A B : Type} (f : A -> Nondet.M Self B) (xs : list A) :
  (forall x, Nondet.deterministic (f x)) -> Nondet.deterministic (Nondet.mmap f xs).
Proof.
  intros Hf. induction xs as [| x xs IH]; cbn [Nondet.mmap].
  - apply deterministic_ret.
  - apply deterministic_bind; [apply Hf |]. intros y.
    apply deterministic_bind; [apply IH |]. intros ys.
    apply deterministic_ret.
Qed.

Lemma keeps_self_ret {A : Type} (a : A) :
  Nondet.keeps_self (Nondet.ret (Self := Self) a).
Proof. intros s o s' H. unfold Nondet.ret in H. congruence. Qed.

Lemma keeps_self_lift {A : Type} (r : result A) :
  Nondet.keeps_self (Nondet.lift (Self := Self) r).
Proof. intros s o s' H. unfold Nondet.lift in H. congruence. Qed.

Lemma keeps_self_getattr {A : Type} (field : Self -> option A) :
  Nondet.keeps_self (Nondet.getattr field).
Proof. intros s o s' H. unfold Nondet.getattr in H. congruence. Qed.

Lemma keeps_self_call {A : Type} (c : Nondet.N A) :
  Nondet.keeps_self (Nondet.call (Self := Self) c).
Proof. intros s o s' (r & _ & H). congruence. Qed.

Lemma keeps_self_bind {A B : Type} (m : Nondet.M Self A) (k : A -> Nondet.M Self B) :
  Nondet.keeps_self m -> (forall a, Nondet.keeps_self (k a)) ->
  Nondet.keeps_self (Nondet.bind m k).
Proof.
  intros Hm Hk s o s' [(e1 & s1 & H1 & E) | (a1 & s1 & H1 & K1)].
  - injection E as -> ->. apply (Hm _ _ _ H1).
  - rewrite <- (Hm _ _ _ H1). apply (Hk _ _ _ _ K1).
Qed.

Lemma keeps_self_mmap {A B : Type} (f : A -> Nondet.M Self B) (xs : list A) :
  (forall x, Nondet.keeps_self (f x)) -> Nondet.keeps_self (Nondet.mmap f xs).
Proof.
  intros Hf. induction xs as [| x xs IH]; cbn [Nondet.mmap].
  - apply keeps_self_ret.
  - apply keeps_self_bind; [apply Hf |]. intros y.
    apply keeps_self_bind; [apply IH |]. intros ys.
    apply keeps_self_ret.
Qed.

(** A constructor over an initialisation with one outcome builds one
    object at most. *)
Lemma construct_functional (fresh : Self) (init : Nondet.M Self unit) :
  Nondet.deterministic init -> Nondet.functional (Nondet.construct fresh init).
Proof.
  intros Hinit o1 o2 (r1 & s1 & H1 & ->) (r2 & s2 & H2 & ->).
  pose proof (Hinit _ _ _ H1 H2) as E. injection E as <- <-. reflexivity.
Qed.

End NondetLemmas.

Create HintDb nondet.

#[local] Hint Resolve deterministic_ret deterministic_lift deterministic_getattr
  deterministic_setattr deterministic_call deterministic_bind deterministic_mmap
  keeps_self_ret keeps_self_lift keeps_self_getattr keeps_self_call
  keeps_self_bind keeps_self_mmap : nondet.

Section NondetRecognize.

Context {imports : Imports} {answers : Nondet.Answers imports}.
Hypothesis Hdet : Nondet.deterministic_answers answers.

Lemma deterministic_legacy_init (model_file : string) :
  Nondet.deterministic (Nondet.Legacy.__init__ model_file).
Proof.
  destruct Hdet as (_ & _ & _ & _ & _ & Hload & _).
  unfold Nondet.Legacy.__init__. auto 10 with nondet.
Qed.

Lemma deterministic_nn_init (model_file : string) :
  Nondet.deterministic (Nondet.NN.__init__ model_file).
Proof.
  destruct Hdet as (_ & _ & _ & _ & _ & Hload & _).
  unfold Nondet.NN.__init__. auto 10 with nondet.
Qed.

Lemma deterministic_legacy_recognize (img : bytes) :
  Nondet.deterministic (Nondet.Legacy.recognize img).
Proof.
  destruct Hdet as (Hopen & Hconv & Hh & Hv & Hnorm & _ & Hrun & _).
  assert (Hseg : forall piece, Nondet.deterministic (Nondet.Legacy.segment_data piece)).
  { intros piece. unfold Nondet.Legacy.segment_data. auto 10 with nondet. }
  assert (Hpred : forall x, Nondet.deterministic (Nondet.Legacy.predict_segment x)).
  { intros x. unfold Nondet.Legacy.predict_segment, Nondet.run_first_input.
    auto 10 with nondet. }
  unfold Nondet.Legacy.recognize. cbv zeta. auto 20 with nondet.
Qed.

Lemma deterministic_nn_recognize (img : bytes) :
  Nondet.deterministic (Nondet.NN.recognize img).
Proof.
  destruct Hdet as (Hopen & Hconv & _ & _ & _ & _ & _ & Hrun).
  unfold Nondet.NN.recognize, Nondet.run_first_input. cbv zeta.
  auto 20 with nondet.
Qed.

End NondetRecognize.

Lemma keeps_self_legacy_recognize {imports : Imports} {answers : Nondet.Answers imports}
    (img : bytes) :
  Nondet.keeps_self (Nondet.Legacy.recognize img).
Proof.
  assert (Hseg : forall piece, Nondet.keeps_self (Nondet.Legacy.segment_data piece)).
  { intros piece. unfold Nondet.Legacy.segment_data. auto 10 with nondet. }
  assert (Hpred : forall x, Nondet.keeps_self (Nondet.Legacy.predict_segment x)).
  { intros x. unfold Nondet.Legacy.predict_segment, Nondet.run_first_input.
    auto 10 with nondet. }
  unfold Nondet.Legacy.recognize. cbv zeta. auto 20 with nondet.
Qed.

Lemma keeps_self_nn_recognize {imports : Imports} {answers : Nondet.Answers imports}
    (img : bytes) :
  Nondet.keeps_self (Nondet.NN.recognize img).
Proof.
  unfold Nondet.NN.recognize, Nondet.run_first_input. cbv zeta.
  auto 20 with nondet.
Qed.

(** *** The two models of the collaborators

    Over collaborators that answer what functions return, the outcome
    of a method body in state-passing style is an outcome that the
    body over calls may have. *)

Section Agrees.

Variable Self : Type.

Lemma agrees_ret {A : Type} (a : A) :
  agrees (Nondet.ret (Self := Self) a) (ret a).
Proof. intros w. reflexivity. Qed.

Lemma agrees_lift {A : Type} (r : result A) :
  agrees (Nondet.lift (Self := Self) r) (lift r).
Proof. intros w. reflexivity. Qed.

Lemma agrees_call {A : Type} (r : result A) :
  agrees (Nondet.call (Self := Self) (fun out => out = r)) (lift r).
Proof. intros w. exists r. split; reflexivity. Qed.

Lemma agrees_getattr {A : Type} (field : Self -> option A) :
  agrees (Nondet.getattr field) (getattr field).
Proof.
  intros w. unfold Nondet.getattr, getattr.
  destruct (field (self w)); reflexivity.
Qed.

Lemma agrees_emit {A : Type} (nd : Nondet.M Self A) (fn : M Self A) (ev : event) :
  agrees nd fn -> agrees nd (bind (emit ev) (fun _ => fn)).
Proof.
  intros H w. unfold bind, emit.
  apply (H (mkWorld (self w) (trace w ++ [ev]))).
Qed.

Lemma agrees_bind {A B : Type}
    (nd : Nondet.M Self A) (fn : M Self A)
    (ndk : A -> Nondet.M Self B) (fnk : A -> M Self B) :
  agrees nd fn -> (forall a, agrees (ndk a) (fnk a)) ->
  agrees (Nondet.bind nd ndk) (bind fn fnk).
Proof.
  intros H Hk w. specialize (H w). unfold Nondet.bind, bind.
  destruct (fn w) as [[e | a] w1]; cbn [fst snd] in *.
  - left. exists e, (self w1). split; [exact H | reflexivity].
  - right. exists a, (self w1). split; [exact H | apply (Hk a w1)].
Qed.

Lemma agrees_mmap {A B : Type}
    (ndf : A -> Nondet.M Self B) (fnf : A -> M Self B) (xs : list A) :
  (forall x, agrees (ndf x) (fnf x)) ->
  agrees (Nondet.mmap ndf xs) (mmap fnf xs).
Proof.
  intros Hf. induction xs as [| x xs IH]; cbn [Nondet.mmap mmap].
  - apply agrees_ret.
  - apply agrees_bind; [apply Hf |]. intros y.
    apply agrees_bind; [apply IH |]. intros ys.
    apply agrees_ret.
Qed.

(** A comprehension of the error monad, read as one over calls. *)
Lemma agrees_rmap {A B : Type}
    (ndf : A -> Nondet.M Self B) (f : A -> result B) (xs : list A) :
  (forall x, agrees (ndf x) (lift (f x))) ->
  agrees (Nondet.mmap ndf xs) (lift (rmap f xs)).
Proof.
  intros Hf w. unfold lift. cbn [fst snd].
  induction xs as [| x xs IH]; cbn [Nondet.mmap rmap].
  - reflexivity.
  - specialize (Hf x w). unfold lift in Hf. cbn [fst snd] in Hf.
    unfold Nondet.bind. destruct (f x) as [e | y]; cbn [rbind ok raise].
    + left. exists e, (self w). split; [exact Hf | reflexivity].
    + right. exists y, (self w). split; [exact Hf |].
      destruct (rmap f xs) as [e | ys]; cbn [rbind ok raise].
      * left. exists e, (self w). split; [exact IH | reflexivity].
      * right. exists ys, (self w). split; [exact IH | reflexivity].
Qed.

End Agrees.

Section AgreesRecognize.

Context {imports : Imports}.

Lemma agrees_run_first_input {Self X Y : Type}
    (run : InferenceSession -> list (string * X) -> result Y)
    (sess : InferenceSession) (x : X) :
  agrees (Nondet.run_first_input (Self := Self)
            (fun s feeds out => out = run s feeds) sess x)
         (run_first_input run sess x).
Proof.
  unfold Nondet.run_first_input, run_first_input.
  apply agrees_bind; [apply agrees_lift |]. intros input.
  apply agrees_emit. apply (agrees_call (Self := Self) (run sess [(name input, x)])).
Qed.

Lemma agrees_open_image {Self : Type} (img : bytes) :
  agrees (Nondet.call (Self := Self) (fun out => out = Image_open img))
         (open_image img).
Proof.
  unfold open_image. apply agrees_emit.
  apply (agrees_call (Self := Self) (Image_open img)).
Qed.

Lemma agrees_segment_data (piece : Image) :
  agrees (Nondet.Legacy.segment_data (answers := Nondet.answers_of imports) piece)
         (lift (LegacyRecognizer.segment_data piece)).
Proof.
  intros w. unfold lift. cbn [fst snd].
  unfold Nondet.Legacy.segment_data, LegacyRecognizer.segment_data,
    Nondet.bind, Nondet.call, Nondet.ret.
  cbn [Nondet.v_splits Nondet.normalizes Nondet.converts Nondet.answers_of].
  destruct (v_split piece) as [e | v]; cbn [rbind ok raise].
  { left. exists e, (self w). split; [| reflexivity].
    exists (inl e). split; [reflexivity | reflexivity]. }
  right. exists v, (self w). split.
  { exists (inr v). split; [reflexivity | reflexivity]. }
  destruct (normalize v) as [e | n]; cbn [rbind ok raise].
  { left. exists e, (self w). split; [| reflexivity].
    exists (inl e). split; [reflexivity | reflexivity]. }
  right. exists n, (self w). split.
  { exists (inr n). split; [reflexivity | reflexivity]. }
  destruct (convert "L" n) as [e | g]; cbn [rbind ok raise].
  { left. exists e, (self w). split; [| reflexivity].
    exists (inl e). split; [reflexivity | reflexivity]. }
  right. exists g, (self w). split; [| reflexivity].
  exists (inr g). split; [reflexivity | reflexivity].
Qed.

(** Over collaborators that are functions, [recognize] over calls may
    have the outcome that [recognize] in state-passing style has. *)
Lemma agrees_legacy_recognize (img : bytes) :
  agrees (Nondet.Legacy.recognize (answers := Nondet.answers_of imports) img)
         (LegacyRecognizer.recognize img).
Proof.
  unfold Nondet.Legacy.recognize, LegacyRecognizer.recognize. cbv zeta.
  apply agrees_bind; [apply agrees_open_image |]. intros opened.
  apply agrees_bind; [apply (agrees_call (convert "L" opened)) |]. intros grey.
  apply agrees_bind; [apply agrees_getattr |]. intros table.
  apply agrees_bind; [apply agrees_lift |]. intros binary.
  apply agrees_bind; [apply (agrees_call (h_split binary)) |]. intros pieces.
  apply agrees_bind; [apply agrees_rmap, agrees_segment_data |]. intros segments.
  apply agrees_bind.
  { apply agrees_mmap. intros x.
    unfold Nondet.Legacy.predict_segment, LegacyRecognizer.predict_segment.
    apply agrees_bind; [apply agrees_getattr |]. intros clr.
    apply (agrees_run_first_input run_classifier). }
  intros predicts.
  apply agrees_bind; [apply agrees_lift |]. intros texts.
  apply agrees_ret.
Qed.

Lemma agrees_nn_recognize (img : bytes) :
  agrees (Nondet.NN.recognize (answers := Nondet.answers_of imports) img)
         (NNRecognizer.recognize img).
Proof.
  unfold Nondet.NN.recognize, NNRecognizer.recognize. cbv zeta.
  apply agrees_bind; [apply agrees_open_image |]. intros opened.
  apply agrees_bind; [apply (agrees_call (convert "L" opened)) |]. intros grey.
  apply agrees_bind; [apply agrees_getattr |]. intros table.
  apply agrees_bind; [apply agrees_lift |]. intros binary.
  apply agrees_bind; [apply agrees_getattr |]. intros sess.
  apply agrees_bind; [apply (agrees_run_first_input run_network) |]. intros outs.
  apply agrees_bind; [apply agrees_lift |]. intros output.
  apply agrees_ret.
Qed.

Lemma answers_of_deterministic :
  Nondet.deterministic_answers (Nondet.answers_of imports).
Proof.
  repeat split; intros; intros o1 o2 H1 H2; cbn in H1, H2; congruence.
Qed.

End AgreesRecognize.

(** C8, as the code has it: when every collaborator answers the same on
    the same arguments (the decoder, the conversion, the helpers of
    [utils], the loading of a model file and the runs of a session), so
    does [recognize]: two calls with the same bytes, the second made on
    the recognizer that the first left, have the same outcome, and so
    have calls on two recognizers built from the same model file.  The
    collaborators are not assumed to be functions here; [recognize]
    itself draws on nothing else. *)
Theorem recognize_deterministic {imports : Imports} {answers : Nondet.Answers imports}
    (img : bytes) :
  Nondet.deterministic_answers answers ->
  (forall r o1 r1 o2 r2,
     Nondet.Legacy.recognize img r (o1, r1) ->
     Nondet.Legacy.recognize img r1 (o2, r2) ->
     o1 = o2) /\
  (forall model_file ra rb o1 r1 o2 r2,
     Nondet.Legacy.new model_file (ok ra) ->
     Nondet.Legacy.new model_file (ok rb) ->
     Nondet.Legacy.recognize img ra (o1, r1) ->
     Nondet.Legacy.recognize img rb (o2, r2) ->
     o1 = o2) /\
  (forall r o1 r1 o2 r2,
     Nondet.NN.recognize img r (o1, r1) ->
     Nondet.NN.recognize img r1 (o2, r2) ->
     o1 = o2) /\
  (forall model_file ra rb o1 r1 o2 r2,
     Nondet.NN.new model_file (ok ra) ->
     Nondet.NN.new model_file (ok rb) ->
     Nondet.NN.recognize img ra (o1, r1) ->
     Nondet.NN.recognize img rb (o2, r2) ->
     o1 = o2).
Proof.
  intros Hdet. split; [| split; [| split]].
  - intros r o1 r1 o2 r2 H1 H2.
    assert (Er : r1 = r) by (eapply keeps_self_legacy_recognize; exact H1).
    subst r1.
    assert (E : (o1, r) = (o2, r2))
      by (eapply deterministic_legacy_recognize; eassumption).
    injection E as E _. exact E.
  - intros f ra rb o1 r1 o2 r2 Ha Hb H1 H2.
    assert (Er : ok ra = ok rb).
    { eapply construct_functional; [| exact Ha | exact Hb].
      apply deterministic_legacy_init, Hdet. }
    injection Er as <-.
    assert (E : (o1, r1) = (o2, r2))
      by (eapply deterministic_legacy_recognize; eassumption).
    injection E as E _. exact E.
  - intros r o1 r1 o2 r2 H1 H2.
    assert (Er : r1 = r) by (eapply keeps_self_nn_recognize; exact H1).
    subst r1.
    assert (E : (o1, r) = (o2, r2))
      by (eapply deterministic_nn_recognize; eassumption).
    injection E as E _. exact E.
  - intros f ra rb o1 r1 o2 r2 Ha Hb H1 H2.
    assert (Er : ok ra = ok rb).
    { eapply construct_functional; [| exact Ha | exact Hb].
      apply deterministic_nn_init, Hdet. }
    injection Er as <-.
    assert (E : (o1, r1) = (o2, r2))
      by (eapply deterministic_nn_recognize; eassumption).
    injection E as E _. exact E.
Qed.

Lemma recognize_deterministic_witness :
  Nondet.deterministic_answers (Nondet.answers_of Sample.letters) /\
  Nondet.Legacy.recognize (answers := Nondet.answers_of Sample.letters)
    Sample.two_pixels Sample.legacy_letters (ok "ab", Sample.legacy_letters) /\
  (forall o r',
     Nondet.Legacy.recognize (answers := Nondet.answers_of Sample.letters)
       Sample.two_pixels Sample.legacy_letters (o, r') ->
     o = ok "ab").
Proof.
  assert (Hdet : Nondet.deterministic_answers (Nondet.answers_of Sample.letters))
    by apply answers_of_deterministic.
  assert (Hrun : Nondet.Legacy.recognize (answers := Nondet.answers_of Sample.letters)
            Sample.two_pixels Sample.legacy_letters (ok "ab", Sample.legacy_letters)).
  { exact (agrees_legacy_recognize (imports := Sample.letters) Sample.two_pixels
             (mkWorld Sample.legacy_letters [])). }
  split; [exact Hdet |]. split; [exact Hrun |].
  intros o r' H. symmetry.
  exact (proj1 (recognize_deterministic Sample.two_pixels Hdet) _ _ _ _ _ Hrun H).
Defined.

(** *** A classifier that may answer either letter

    The assumption on the collaborators is needed: with a classifier
    that may answer either letter on a segment, [recognize] has two
    outcomes on a picture of one pixel. *)

(** The next part of a body returns: its outcome is to be given, then
    the rest of the body goes on. *)
Ltac nd_returns := right; eexists; eexists; split.

(** A call of a collaborator whose one answer is computed. *)
Ltac nd_call := eexists; split; reflexivity.

(** The run of [recognize] over the fickle classifier on one pixel,
    where [choice] picks the answer of the classifier. *)
Ltac fickle_run choice :=
  unfold Nondet.Legacy.recognize;
  nd_returns; [nd_call |];
  nd_returns; [nd_call |];
  nd_returns; [reflexivity |];
  nd_returns; [reflexivity |];
  nd_returns; [nd_call |];
  nd_returns;
  [ cbn [Nondet.mmap]; nd_returns;
    [ unfold Nondet.Legacy.segment_data;
      nd_returns; [nd_call |];
      nd_returns; [nd_call |];
      nd_returns; [nd_call |];
      reflexivity
    | nd_returns; [reflexivity | reflexivity] ]
  | ];
  cbv zeta; nd_returns;
  [ cbn [Nondet.mmap map]; nd_returns;
    [ unfold Nondet.Legacy.predict_segment, Nondet.run_first_input;
      nd_returns; [reflexivity |];
      nd_returns; [reflexivity |];
      eexists; split; [choice; reflexivity | reflexivity]
    | nd_returns; [reflexivity | reflexivity] ]
  | ];
  nd_returns; [reflexivity | reflexivity].

Lemma fickle_recognize_a :
  Nondet.Legacy.recognize (answers := Nondet.fickle)
    Sample.one_pixel Sample.legacy_letters (ok "a", Sample.legacy_letters).
Proof. fickle_run ltac:(left). Qed.

Lemma fickle_recognize_b :
  Nondet.Legacy.recognize (answers := Nondet.fickle)
    Sample.one_pixel Sample.legacy_letters (ok "b", Sample.legacy_letters).
Proof. fickle_run ltac:(right). Qed.

Lemma fickle_new :
  Nondet.Legacy.new (answers := Nondet.fickle) "svm_model.onnx"
    (ok Sample.legacy_letters).
Proof.
  unfold Nondet.Legacy.new, Nondet.construct, Nondet.Legacy.__init__.
  exists (ok tt), Sample.legacy_letters. split; [| reflexivity].
  nd_returns; [nd_call |].
  nd_returns; [reflexivity | reflexivity].
Qed.

(** C8, as the claim has it, fails: the recognizer built from a model
    whose run may answer either letter returns "a" on a picture of one
    pixel, is left as it was, and may return "b" on the same bytes at
    the next call. *)
Lemma fickle_recognize_two_outcomes :
  Nondet.Legacy.new (answers := Nondet.fickle) "svm_model.onnx"
    (ok Sample.legacy_letters) /\
  Nondet.Legacy.recognize (answers := Nondet.fickle)
    Sample.one_pixel Sample.legacy_letters (ok "a", Sample.legacy_letters) /\
  Nondet.Legacy.recognize (answers := Nondet.fickle)
    Sample.one_pixel Sample.legacy_letters (ok "b", Sample.legacy_letters) /\
  ok (A := string) "a" <> ok "b".
Proof.
  split; [exact fickle_new |].
  split; [exact fickle_recognize_a |].
  split; [exact fickle_recognize_b | discriminate].
Qed.
